(** * The templates_parser regression driver, [regtests/testsuite.py]

    A shallow embedding of the driver script and the properties of its
    test discovery, result-directory clean-up, command-line construction,
    report writing and top-level error handling.

    The script is glue over collaborators it imports: Python's [glob], [os]
    and string methods, and gnatpython's [rm], [mkdir], [Main], [Env],
    [MainLoop] and [ReportDiff].  The file system, the process environment
    and the standard streams are an explicit [world]; code that touches
    them lives in the state-and-exception monad [M].  Collaborators whose
    behaviour the script only forwards to (option parsing, the job loop,
    the report renderer) are fields of a [Harness] record and are left
    arbitrary in every statement. *)

From Stdlib Require Import Ascii ZArith.
From stdpp Require Import base option list strings gmap.



(** ** Python string primitives used by the script *)

(** Truth value of a string in a condition: [if s:]. *)
Definition truthy (s : string) : bool :=
  match s with
  | EmptyString => false
  | String _ _ => true
  end.

(** [s.startswith(p)]. *)
Fixpoint startswith (s p : string) {struct p} : bool :=
  match p with
  | EmptyString => true
  | String a p' =>
      match s with
      | EmptyString => false
      | String b s' => if Ascii.eqb a b then startswith s' p' else false
      end
  end.

(** [s.endswith(p)], by scanning for the position where the rest is [p]. *)
Fixpoint endswith (s p : string) {struct s} : bool :=
  if String.eqb s p then true
  else match s with
       | EmptyString => false
       | String _ s' => endswith s' p
       end.

(** [x in s] for two strings: [x] occurs in [s] as a contiguous run. *)
Fixpoint str_in (x s : string) {struct s} : bool :=
  startswith s x ||
  match s with
  | EmptyString => false
  | String _ s' => str_in x s'
  end.

(** [c in s] for a single character. *)
Fixpoint char_in (c : ascii) (s : string) : bool :=
  match s with
  | EmptyString => false
  | String d s' => Ascii.eqb c d || char_in c s'
  end.

(** [sep.join(l)]. *)
Fixpoint str_join (sep : string) (l : list string) : string :=
  match l with
  | [] => ""
  | [x] => x
  | x :: l' => x +:+ sep +:+ str_join sep l'
  end.

(** [s.split(sep)] for a one-character separator: every occurrence of
    [sep] ends a field, so a string with [n] separators has [n+1] fields. *)
Fixpoint str_split (sep : ascii) (s : string) : list string :=
  match s with
  | EmptyString => [""]
  | String c s' =>
      if Ascii.eqb c sep then "" :: str_split sep s'
      else match str_split sep s' with
           | x :: l => String c x :: l
           | [] => [String c ""]
           end
  end.

(** [c.isupper()] on one byte: one of the 26 letters [A]..[Z]. *)
Definition is_upper (c : ascii) : bool :=
  (65 <=? Ascii.nat_of_ascii c)%nat && (Ascii.nat_of_ascii c <=? 90)%nat.

(** [c.lower()] on one byte: the letters [A]..[Z] move to [a]..[z], every
    other byte stays. *)
Definition lower_char (c : ascii) : ascii :=
  if is_upper c then Ascii.ascii_of_nat (Ascii.nat_of_ascii c + 32) else c.

(** [s.lower()]. *)
Fixpoint lower (s : string) : string :=
  match s with
  | EmptyString => ""
  | String c s' => String (lower_char c) (lower s')
  end.

(** ** Test discovery: [filter_list] (lines 110-119) *)

Section FilterList.

(** [glob(pattern)] as seen by one call: the expansion of each pattern. *)
Variable glob : string → list string.

Definition filter_list (pattern : string) (run_test : string) : list string :=
  let test_list := glob pattern in
  if negb (truthy run_test) then test_list
  else List.filter (λ test, str_in run_test test) test_list.

End FilterList.

(** What [run_test in test] means: [test] is [a ++ run_test ++ b]. *)
Definition contains (test run_test : string) : Prop :=
  ∃ a b : string, test = a +:+ run_test +:+ b.


(** ** The world the script runs in *)

(** A file-system entry.  The file system is a finite map from paths to
    entries.  A path is identified with the string that names it, relative
    names being relative to the working directory: the model has no [..]
    components, repeated slashes or second spellings of a file, and no
    symbolic links. *)
Inductive node : Type :=
  | File (content : string)
  | Dir.

Global Instance node_eq_dec : EqDecision node.
Proof. solve_decision. Defined.

Record world : Type := World {
  cwd : string;                      (* os.getcwd() *)
  environ : gmap string string;      (* os.environ *)
  fs : gmap string node;             (* the file system *)
  stdout : list string;              (* the text of each print so far *)
  stderr : list string;              (* lines of traceback so far *)
}.

Definition set_fs (f : gmap string node → gmap string node) (w : world) : world :=
  World (cwd w) (environ w) (f (fs w)) (stdout w) (stderr w).

Definition set_environ (f : gmap string string → gmap string string) (w : world) : world :=
  World (cwd w) (f (environ w)) (fs w) (stdout w) (stderr w).

Definition add_stdout (line : string) (w : world) : world :=
  World (cwd w) (environ w) (fs w) (stdout w ++ [line]) (stderr w).

Definition add_stderr (line : string) (w : world) : world :=
  World (cwd w) (environ w) (fs w) (stdout w) (stderr w ++ [line]).

(** Exceptions: the two classes the interpreter and the script tell apart,
    and every other class by name. *)
Inductive exn : Type :=
  | AssertionError (msg : string)
  | SystemExit (code : Z)
  | Exception (class msg : string).

Inductive outcome (A : Type) : Type :=
  | Returned (a : A)
  | Raised (e : exn).
Arguments Returned {A} a.
Arguments Raised {A} e.

(** Code with effects: it changes the world and returns or raises.  The
    world at the point of a [raise] is kept, as a deleted file stays
    deleted when a later statement fails. *)
Definition M (A : Type) : Type := world → world * outcome A.

Global Instance M_ret : MRet M := λ A a w, (w, Returned a).

Global Instance M_bind : MBind M := λ A B k m w,
  match m w with
  | (w', Returned a) => k a w'
  | (w', Raised e) => (w', Raised e)
  end.

Definition raise {A : Type} (e : exn) : M A := λ w, (w, Raised e).

(** [try: m  except e: handler e]. *)
Definition try_except {A : Type} (m : M A) (handler : exn → M A) : M A := λ w,
  match m w with
  | (w', Returned a) => (w', Returned a)
  | (w', Raised e) => handler e w'
  end.

(** [for x in l: body x]. *)
Fixpoint for_each {A : Type} (l : list A) (body : A → M unit) : M unit :=
  match l with
  | [] => mret tt
  | x :: l' => body x ;; for_each l' body
  end.

(** Reading the world. *)
Definition gets {A : Type} (f : world → A) : M A := λ w, (w, Returned (f w)).

(** The [print] statement. *)
Definition print (line : string) : M unit := λ w, (add_stdout line w, Returned tt).

(** ** [os.path] *)

(** [os.path.exists] and [os.path.lexists] are one function here: there
    are no symbolic links.  The map holds an entry under one spelling of
    its path, and the lookup is by that spelling: [out/], [./out] and [out]
    are three keys, where the operating system sees one directory.  The
    answer is the operating system's for a file system and a path in
    canonical spelling ([well_formed] and [canonical] below), and the
    properties of the clean-up that rest on an existence test are stated
    for those. *)
Definition lexists (path : string) (m : gmap string node) : bool :=
  bool_decide (is_Some (m !! path)).

Definition isdir (path : string) (m : gmap string node) : bool :=
  bool_decide (m !! path = Some Dir).

Definition isfile (path : string) (m : gmap string node) : bool :=
  match m !! path with
  | Some (File _) => true
  | _ => false
  end.

(** [s.rstrip('/')]. *)
Fixpoint rstrip_slash (s : string) : string :=
  match s with
  | EmptyString => ""
  | String c s' =>
      let r := rstrip_slash s' in
      if Ascii.eqb c "/" && negb (truthy r) then "" else String c r
  end.

(** [(p[:i], p[i:])] for [i = p.rfind('/') + 1]. *)
Fixpoint cut_last_slash (p : string) : string * string :=
  match p with
  | EmptyString => ("", "")
  | String c p' =>
      let (head, tail) := cut_last_slash p' in
      if Ascii.eqb c "/" || truthy head then (String c head, tail)
      else ("", String c tail)
  end.

(** [posixpath.split]: the head loses its trailing slashes unless it
    consists of slashes only. *)
Definition path_split (p : string) : string * string :=
  let (head, tail) := cut_last_slash p in
  (if truthy (rstrip_slash head) then rstrip_slash head else head, tail).

(** [posixpath.join(a, b)]. *)
Definition path_join (a b : string) : string :=
  if startswith b "/" then b
  else if negb (truthy a) || endswith a "/" then a +:+ b
  else a +:+ "/" +:+ b.

(** ** [glob] and [fnmatch] (Python 2.7) *)

(** [glob.has_magic]: the pattern holds one of [*], [?], [[]. *)
Definition has_magic (s : string) : bool :=
  char_in "*" s || char_in "?" s || char_in "[" s.

(** [fnmatch.fnmatch(name, pat)] on POSIX: [*] stands for any run of
    characters and [?] for any one character.  A [[] is matched as itself,
    which is what [fnmatch] does for a bracket that is never closed;
    bracket classes are not interpreted. *)
Fixpoint fnmatch (name pat : string) {struct pat} : bool :=
  match pat with
  | EmptyString => negb (truthy name)
  | String c pat' =>
      if Ascii.eqb c "*" then
        (fix star (n : string) : bool :=
           fnmatch n pat' ||
           match n with
           | EmptyString => false
           | String _ n' => star n'
           end) name
      else
        match name with
        | EmptyString => false
        | String d name' =>
            (Ascii.eqb c "?" || Ascii.eqb c d) && fnmatch name' pat'
        end
  end.

(** [x[0] == '.']. *)
Definition hidden (name : string) : bool := startswith name ".".

Fixpoint removeprefix (p s : string) {struct p} : option string :=
  match p with
  | EmptyString => Some s
  | String a p' =>
      match s with
      | EmptyString => None
      | String b s' => if Ascii.eqb a b then removeprefix p' s' else None
      end
  end.

(** The text every entry of directory [d] starts with; [.] is the working
    directory, whose entries are spelled without a prefix. *)
Definition dir_prefix (d : string) : string :=
  if String.eqb d "." then ""
  else if endswith d "/" then d
  else d +:+ "/".

(** [Some n] when the path [k] is the entry named [n] of directory [d]. *)
Definition entry_name (d k : string) : option string :=
  n ← removeprefix (dir_prefix d) k;
  if truthy n && negb (char_in "/" n) then Some n else None.

(** [os.listdir(d)], in the order the file system enumerates its entries;
    [None] stands for the [OSError] of a path that is not a directory. *)
Definition listdir (d : string) (m : gmap string node) : option (list string) :=
  if String.eqb d "." || isdir d m
  then Some (omap (entry_name d) (map_to_list m).*1)
  else None.

(** [glob.glob1]. *)
Definition glob1 (dirname pattern : string) (m : gmap string node) : list string :=
  let dirname := if truthy dirname then dirname else "." in
  match listdir dirname m with
  | None => []
  | Some names =>
      let names :=
        if hidden pattern then names
        else List.filter (λ x, negb (hidden x)) names in
      List.filter (λ x, fnmatch x pattern) names
  end.

(** [glob.glob0]. *)
Definition glob0 (dirname basename : string) (m : gmap string node) : list string :=
  if negb (truthy basename) then
    if isdir dirname m then [basename] else []
  else
    if lexists (path_join dirname basename) m then [basename] else [].

(** [glob.iglob].  The recursion is on the directory part of the pattern,
    which is shorter than the pattern; [fuel] bounds it. *)
Fixpoint iglob (fuel : nat) (pathname : string) (m : gmap string node) : list string :=
  match fuel with
  | O => []
  | S fuel' =>
      let (dirname, basename) := path_split pathname in
      if negb (has_magic pathname) then
        if truthy basename then
          if lexists pathname m then [pathname] else []
        else
          if isdir dirname m then [pathname] else []
      else if negb (truthy dirname) then
        glob1 "." basename m
      else
        let dirs :=
          if negb (String.eqb dirname pathname) && has_magic dirname
          then iglob fuel' dirname m
          else [dirname] in
        let glob_in_dir := if has_magic basename then glob1 else glob0 in
        flat_map (λ d, map (path_join d) (glob_in_dir d basename m)) dirs
  end.

Definition glob (pathname : string) (m : gmap string node) : list string :=
  iglob (S (String.length pathname)) pathname m.

(** ** [gnatpython.fileutils] *)

(** [k] lies below the directory [f]. *)
Definition beneath (f k : string) : bool := startswith k (f +:+ "/").

(** [shutil.rmtree(f)]: the entry [f] goes, with all that lies below it. *)
Definition rmtree (f : string) (m : gmap string node) : gmap string node :=
  filter (λ kv, kv.1 ≠ f ∧ beneath f kv.1 = false) m.

(** [rm(path, recursive=False)]: [path] is expanded as a glob pattern and
    each distinct match is removed, a directory with its whole subtree when
    [recursive] (the script always passes [True]), a regular file only
    otherwise.  Nothing matching is not an error; a match that cannot be
    removed raises [FileUtilsError]. *)
Definition rm_one (recursive : bool) (f : string) : M unit := λ w,
  if recursive then
    if lexists f (fs w) then (set_fs (rmtree f) w, Returned tt)
    else (w, Raised (Exception "FileUtilsError" ("rm: " +:+ f)))
  else
    if isfile f (fs w) then (set_fs (delete f) w, Returned tt)
    else (w, Raised (Exception "FileUtilsError" ("rm: " +:+ f))).

Definition rm (path : string) (recursive : bool) : M unit :=
  file_list ← gets (λ w, remove_dups (glob path (fs w)));
  for_each file_list (rm_one recursive).

(** The directories above [p]: the prefixes of [p] that end before a [/]. *)
Fixpoint ancestors_from (acc p : string) : list string :=
  match p with
  | EmptyString => []
  | String c p' =>
      (if Ascii.eqb c "/" && truthy acc then [acc] else []) ++
      ancestors_from (acc +:+ String c "") p'
  end.

Definition ancestors (p : string) : list string := ancestors_from "" p.

(** [mkdir(path)]: nothing to do for an existing directory; otherwise the
    directory is made together with the missing directories above it
    ([mkdir -p]); [FileUtilsError] when a regular file is in the way. *)
Definition mkdir (path : string) : M unit := λ w,
  if isdir path (fs w) then (w, Returned tt)
  else
    let chain := ancestors path ++ [path] in
    if truthy path && forallb (λ d, negb (isfile d (fs w))) chain
    then (set_fs (λ m, foldr (λ d, <[d := Dir]>) m chain) w, Returned tt)
    else (w, Raised (Exception "FileUtilsError" ("mkdir: " +:+ path))).

(** [open(path, 'w').write(content)] and the close at the end of [with]:
    the directory part must be a directory and [path] must not be one. *)
Definition writable (path : string) (m : gmap string node) : bool :=
  negb (isdir path m) &&
  (negb (truthy (path_split path).1) || isdir (path_split path).1 m).

Definition write_file (path content : string) : M unit := λ w,
  if writable path (fs w)
  then (set_fs <[path := File content]> w, Returned tt)
  else (w, Raised (Exception "IOError" path)).

(** ** The collaborators the script drives *)

(** What [m.parse_args()] leaves in [m.options] and [m.args]: the options
    [add_mainloop_options] and [add_run_test_options] declare, the two the
    script adds, and the positional arguments. *)
Record parsed : Type := Parsed {
  p_discs : option string;            (* comma-separated, [None] when absent *)
  p_output_dir : string;
  p_tmp : string;
  p_verbose : bool;
  p_host : option string;
  p_target : option string;
  p_enable_cleanup : bool;
  p_view_diffs : bool;                (* --diffs *)
  p_old_result_dir : option string;   (* --old-result-dir *)
  p_mainloop_jobs : Z;
  p_args : list string;               (* m.args *)
}.

(** [m.options] as [__parse_options] returns it; [opt_x] is the attribute
    [options.x].  [opt_discs] is the list [discs.split(',')] makes, and
    the empty list for the two values the script leaves alone because they
    are false in a condition ([None] and the empty string). *)
Record options : Type := Options {
  opt_run_test : string;
  opt_discs : list string;
  opt_output_dir : string;
  opt_tmp : string;
  opt_verbose : bool;
  opt_host : option string;
  opt_target : option string;
  opt_enable_cleanup : bool;
  opt_view_diffs : bool;
  opt_old_result_dir : option string;
  opt_mainloop_jobs : Z;
}.

(** [env.target], of which the script reads two attributes. *)
Record target_env : Type := Target {
  platform : string;
  triplet : string;
}.

(** [Run(cmd, bg)]: the process started for a command line. *)
Record process : Type := Run {
  cmd : list string;
  bg : bool;
}.

(** The callback [generate_collect_result(result_dir, results_file,
    view_diffs)] builds, known by what it was built from. *)
Record collect : Type := generate_collect_result {
  collect_result_dir : string;
  collect_results_file : string;
  collect_view_diffs : bool;
}.

(** Everything the script takes from the interpreter and from gnatpython
    without looking inside.  The effectful ones may change the world in any
    way and may raise. *)
Record Harness : Type := {
  sys_executable : string;
  os_pathsep : string;
  (** [Main()], the [add_..._options] calls and [m.parse_args()]. *)
  parse_args : M parsed;
  (** [Env()] and [env.target]. *)
  Env : M target_env;
  (** [env.add_search_path(name, path)]. *)
  add_search_path : string → string → M unit;
  (** [MainLoop(test_list, test_build_cmd, collect_result, jobs)]. *)
  MainLoop : list string → (string → process) → collect → Z → M unit;
  (** The text [ReportDiff(result_dir, old_result_dir)] renders from the
      result files; [txt_image] writes it to the file it is given. *)
  ReportDiff_text : string → option string → gmap string node → string;
}.

(** Truth value of an optional string in a condition: [None] and [''] are
    false. *)
Definition truthy_opt (o : option string) : bool :=
  match o with
  | Some s => truthy s
  | None => false
  end.

(** Truth value of a list in a condition. *)
Definition truthy_list {A : Type} (l : list A) : bool :=
  match l with
  | [] => false
  | _ :: _ => true
  end.

(** ** Module-level set-up (lines 21-39) *)

Definition PLATFORM (env : gmap string string) : string :=
  match env !! "PLATFORM" with
  | None => "native"
  | Some v => lower v
  end.

Definition PRJ_BUILD (env : gmap string string) : string :=
  match env !! "PRJ_BUILD" with
  | None => "debug"
  | Some v => lower v
  end.

Definition ep (w : world) : string :=
  cwd w +:+ "/../.build/" +:+ PLATFORM (environ w) +:+ "/" +:+
  PRJ_BUILD (environ w) +:+ "/static/".

(** [os.environ["PATH"] = os.environ.get("PATH") + ...]: with [PATH] unset
    the left operand is [None] and the sum raises [TypeError]. *)
Definition module_setup (h : Harness) : M unit := λ w,
  match environ w !! "PATH" with
  | None => (w, Raised (Exception "TypeError" "unsupported operand type(s) for +"))
  | Some path =>
      (set_environ
         <["PATH" := path +:+ os_pathsep h +:+ ep w +:+ "bin" +:+
                     os_pathsep h +:+ ep w +:+ "rbin"]> w,
       Returned tt)
  end.

(** ** [__parse_options] (lines 122-143) *)

Definition __parse_options (h : Harness) : M options :=
  m ← parse_args h;
  run_test ←
    (if truthy_list (p_args m) then
       let run_test := hd "" (p_args m) in
       print ("Running only test '" +:+ run_test +:+ "'") ;; mret run_test
     else mret "");
  let discs :=
    match p_discs m with
    | Some d => if truthy d then str_split "," d else []
    | None => []
    end in
  mret (Options run_test discs (p_output_dir m) (p_tmp m) (p_verbose m)
          (p_host m) (p_target m) (p_enable_cleanup m) (p_view_diffs m)
          (p_old_result_dir m) (p_mainloop_jobs m)).

(** ** [main] (lines 52-107) *)

(** Lines 58-59: the directories among the filtered expansion of
    [tests/*]. *)
Definition test_list (run_test : string) (m : gmap string node) : list string :=
  List.filter (λ t, isdir t m) (filter_list (λ p, glob p m) "tests/*" run_test).

(** Lines 65-71: the stale results go, then the directory is made. *)
Definition artifact_exts : list string := [".diff"; ".expected"; ".out"; ".result"].

Definition clean_result_dir (result_dir : string) : M unit :=
  let results_file := result_dir +:+ "/results" in
  present ← gets (λ w, lexists result_dir (fs w));
  (if present : bool then
     for_each [results_file; result_dir +:+ "/report"; "discs"]
       (λ file, rm file true) ;;
     for_each artifact_exts (λ ext,
       files ← gets (λ w, glob (result_dir +:+ "/*" +:+ ext) (fs w));
       for_each files (λ file, rm file true))
   else mret tt) ;;
  mkdir result_dir.

(** Lines 73-79. *)
Definition build_discs (env : target_env) (o : options) : list string :=
  let discs := ["ALL"] in
  let discs := discs ++ ["ALL"] in
  let discs := discs ++ [platform env] in
  let discs := discs ++ [triplet env] in
  if truthy_list (opt_discs o) then discs ++ opt_discs o else discs.

(** Lines 81-96; the second parameter of the source is not used. *)
Definition test_build_cmd (h : Harness) (discs : list string)
    (result_dir : string) (o : options) (test : string) : process :=
  let cmd := [sys_executable h; "run-test";
              "-d"; str_join "," discs;
              "-o"; result_dir;
              "-t"; opt_tmp o;
              test] in
  let cmd := if opt_verbose o then cmd ++ ["-v"] else cmd in
  let cmd := if truthy_opt (opt_host o)
             then cmd ++ ["--host=" +:+ default "" (opt_host o)] else cmd in
  let cmd := if truthy_opt (opt_target o)
             then cmd ++ ["--target=" +:+ default "" (opt_target o)] else cmd in
  let cmd := if negb (opt_enable_cleanup o)
             then cmd ++ ["--disable-cleanup"] else cmd in
  Run cmd true.

(** Lines 103-107. *)
Definition write_report (h : Harness) (discs : list string)
    (result_dir : string) (o : options) : M unit :=
  write_file (result_dir +:+ "/discs") (str_join " " discs) ;;
  text ← gets (λ w, ReportDiff_text h result_dir (opt_old_result_dir o) (fs w));
  write_file (result_dir +:+ "/report") text.

(** Lines 54-101: everything up to the return of [MainLoop]; the value is
    what the rest of [main] still uses. *)
Definition run_tests (h : Harness) : M (options * list string) :=
  o ← __parse_options h;
  env ← Env h;
  here ← gets cwd;
  add_search_path h "PYTHONPATH" here ;;
  tests ← gets (λ w, test_list (opt_run_test o) (fs w));
  let result_dir := opt_output_dir o in
  let results_file := result_dir +:+ "/results" in
  clean_result_dir result_dir ;;
  let discs := build_discs env o in
  let collect_result :=
    generate_collect_result result_dir results_file (opt_view_diffs o) in
  MainLoop h tests (test_build_cmd h discs result_dir o) collect_result
    (opt_mainloop_jobs o) ;;
  mret (o, discs).

Definition main (h : Harness) : M unit :=
  '(o, discs) ← run_tests h;
  write_report h discs (opt_output_dir o) o.

(** ** The script as a process (lines 145-149) *)

(** The [if __name__ == "__main__"] block. *)
Definition __main__ (h : Harness) : M unit :=
  try_except (main h) (λ e,
    match e with
    | AssertionError msg => print ("ERROR: " +:+ msg)
    | _ => raise e
    end).

Definition script (h : Harness) : M unit :=
  module_setup h ;; __main__ h.

(** How the interpreter ends a program: status 0 when it runs off its end,
    the code of a [SystemExit], and for any other exception that nothing
    caught a traceback on the error stream and status 1. *)
Definition traceback (e : exn) : list string :=
  match e with
  | AssertionError msg => ["Traceback (most recent call last):"; "AssertionError: " +:+ msg]
  | SystemExit _ => []
  | Exception class msg => ["Traceback (most recent call last):"; class +:+ ": " +:+ msg]
  end.

Definition python (prog : M unit) (w : world) : world * Z :=
  match prog w with
  | (w', Returned _) => (w', 0%Z)
  | (w', Raised (SystemExit code)) => (w', code)
  | (w', Raised e) => (foldl (λ w l, add_stderr l w) w' (traceback e), 1%Z)
  end.

(** ** Vocabulary of the clean-up properties *)

(** A path the model reads as the script means it: not empty, not the
    [.] spelling of the working directory, free of glob metacharacters and
    without a trailing slash. *)
Definition plain (p : string) : bool :=
  truthy p && negb (String.eqb p ".") && negb (has_magic p) && negb (endswith p "/").

(** Every path of the file system is plain. *)
Definition plain_fs (m : gmap string node) : Prop :=
  map_Forall (λ k _, plain k = true) m.

(** The name of an entry the four [glob] calls of the clean-up match: a
    single path component that does not start with a dot and ends in one of
    the four extensions. *)
Definition artifact_name (n : string) : bool :=
  truthy n && negb (char_in "/" n) && negb (hidden n) &&
  existsb (endswith n) artifact_exts.

(** The paths the clean-up hands to [rm] for the output directory
    [result_dir]. *)
Definition target (result_dir t : string) : Prop :=
  t = result_dir +:+ "/results" ∨ t = result_dir +:+ "/report" ∨ t = "discs" ∨
  ∃ n, artifact_name n = true ∧ t = result_dir +:+ "/" +:+ n.

(** A path the clean-up may remove: a target, or a path below one. *)
Definition covered (result_dir q : string) : Prop :=
  ∃ t, target result_dir t ∧ (q = t ∨ beneath t q = true).

(** What [rm(f, True)] does to the file system for a plain [f]. *)
Definition rm_effect (f : string) (m : gmap string node) : gmap string node :=
  if lexists f m then rmtree f m else m.

(** The deletions of the clean-up as a function of the file system. *)
Definition sweep (result_dir ext : string) (m : gmap string node) : gmap string node :=
  foldl (λ m f, rm_effect f m) m (glob (result_dir +:+ "/*" +:+ ext) m).

Definition clean_deletions (result_dir : string) (m : gmap string node) : gmap string node :=
  let m := foldl (λ m f, rm_effect f m) m
             [result_dir +:+ "/results"; result_dir +:+ "/report"; "discs"] in
  foldl (λ m ext, sweep result_dir ext m) m artifact_exts.

(** What [mkdir(p)] does to the file system, and whether it returns. *)
Definition mkdir_ok (p : string) (m : gmap string node) : bool :=
  isdir p m ||
  (truthy p && forallb (λ d, negb (isfile d m)) (ancestors p ++ [p])).

Definition mkdir_fs (p : string) (m : gmap string node) : gmap string node :=
  if isdir p m then m
  else if mkdir_ok p m then foldr (λ d, <[d := Dir]>) m (ancestors p ++ [p])
  else m.

(** The clean-up as a function of the file system. *)
Definition clean_fs (result_dir : string) (m : gmap string node) : gmap string node :=
  mkdir_fs result_dir (if lexists result_dir m then clean_deletions result_dir m else m).

(** [m] is what is left of [m0] after whole subtrees were removed: an
    entry that is still there has every entry above it as in [m0]. *)
Definition pruned (m0 m : gmap string node) : Prop :=
  m ⊆ m0 ∧
  ∀ a k, beneath a k = true → is_Some (m !! k) → m !! a = m0 !! a.

(** Where the clean-up starts from in the twice-in-a-row property: plain
    paths, the output directory a directory, and directories above it. *)
Definition clean_pre (result_dir : string) (m : gmap string node) : Prop :=
  plain_fs m ∧ m !! result_dir = Some Dir ∧
  Forall (λ a, m !! a = Some Dir) (ancestors result_dir).

(** What it leaves: the output directory is a directory and has no entry
    with the name of an artifact. *)
Definition clean_post (result_dir : string) (m : gmap string node) : Prop :=
  isdir result_dir m = true ∧
  ∀ n, artifact_name n = true → m !! (result_dir +:+ "/" +:+ n) = None.


(** A component of a canonical path: a name an entry can have, which is
    not empty, holds no byte 0, and is not one of the two names [.] and
    [..] that every directory has. *)
Definition component (c : string) : bool :=
  truthy c && negb (String.eqb c ".") && negb (String.eqb c "..") &&
  negb (char_in Ascii.zero c).

(** The canonical spelling of a path below the working directory: plain,
    and components between slashes only.  It starts with no slash and no
    [./], has no doubled slash and steps through no [.] or [..]. *)
Definition canonical (p : string) : bool :=
  plain p && forallb component (str_split "/" p).

(** A file system as the operating system keeps one: every entry under
    its canonical spelling, and below directories only. *)
Definition well_formed (m : gmap string node) : Prop :=
  map_Forall
    (λ k _, canonical k && forallb (λ a, isdir a m) (ancestors k) = true) m.

(** ** Vocabulary of the lower-casing property *)

Definition upper_letters : string := "ABCDEFGHIJKLMNOPQRSTUVWXYZ".
Definition lower_letters : string := "abcdefghijklmnopqrstuvwxyz".

(** [c] carried from the alphabet [from] to the alphabet [to]: the
    character of [to] at the place where [c] stands in [from], and [c]
    itself when it does not stand there. *)
Fixpoint translate (from to : string) (c : ascii) : ascii :=
  match from, to with
  | String a from', String b to' =>
      if Ascii.eqb c a then b else translate from' to' c
  | _, _ => c
  end.

(** The lower-case letter of a character, by the two alphabets. *)
Definition lowercase_of (c : ascii) : ascii :=
  translate upper_letters lower_letters c.

(** ** Sample runs *)

Definition sample_fs : gmap string node :=
  list_to_map
    [("tests", Dir); ("tests/smoke_a", Dir); ("tests/smoke_b", Dir);
     ("tests/other", Dir); ("tests/README", File "how to add a test");
     ("out", Dir); ("out/results", File "smoke_a:OK");
     ("out/report", File "1 test"); ("out/smoke_a.out", File "hello");
     ("out/smoke_a.diff", File "-a +b"); ("out/notes.txt", File "keep me");
     ("discs", File "ALL")].

Definition sample_world : world :=
  World "/work/regtests"
    (list_to_map [("PATH", "/usr/bin"); ("PLATFORM", "X86_64-Linux")])
    sample_fs [] [].

Definition sample_parsed : parsed :=
  Parsed (Some "gnat,fast") "out" "/tmp/tp" true (Some "build-host") None
    false false None 2 ["smoke"; "ignored"].

(** A harness whose job loop prints each command line it is given. *)
Definition sample_harness : Harness := {|
  sys_executable := "/usr/bin/python";
  os_pathsep := ":";
  parse_args := mret sample_parsed;
  Env := mret (Target "x86_64-linux" "x86_64-pc-linux-gnu");
  add_search_path := λ name path w, (set_environ <[name := path]> w, Returned tt);
  MainLoop := λ tests build _ _,
    for_each tests (λ t, print (str_join " " (cmd (build t))));
  ReportDiff_text := λ _ _ _, "2 tests run";
|}.

(** The same harness with a job loop that fails an assertion. *)
Definition failing_harness : Harness := {|
  sys_executable := sys_executable sample_harness;
  os_pathsep := os_pathsep sample_harness;
  parse_args := parse_args sample_harness;
  Env := Env sample_harness;
  add_search_path := add_search_path sample_harness;
  MainLoop := λ _ _ _ _, raise (AssertionError "no job slot");
  ReportDiff_text := ReportDiff_text sample_harness;
|}.

(** An output directory holding a directory with an artifact's name. *)
Definition nested_world : world :=
  World "/work/regtests" ∅
    (list_to_map
       [("out", Dir); ("out/logs.out", Dir);
        ("out/logs.out/keep.txt", File "not an artifact")])
    [] [].

(** An output directory holding an artifact whose name starts with a dot. *)
Definition dotfile_world : world :=
  World "/work/regtests" ∅
    (list_to_map [("out", Dir); ("out/.stale.diff", File "old")])
    [] [].


(** ** [gnatmake] (lines 44-49) *)

(** [Run(cmd)] in the foreground: the command has ended, with its exit
    status and what it printed. *)
Record finished : Type := Finished {
  status : Z;
  out : string;
}.

(** [gnatmake(prj)], over the collaborator that runs a command to its end.
    The output is printed when the status is not zero; the status is not
    handed on. *)
Definition gnatmake (run : list string → M finished) (prj : string) : M unit :=
  let cmd := ["gnatmake"; "-p"; "-gnat05"; "-P" +:+ prj; "-bargs"; "-E"] in
  process ← run cmd;
  if negb (status process =? 0)%Z then print (out process) else mret tt.

(** ** More sample runs *)

(** A compiler that fails on every project but [ok.gpr]. *)
Definition sample_compiler : list string → M finished := λ cmd,
  mret (if bool_decide (cmd !! 3 = Some "-Pok.gpr")
        then Finished 0 "" else Finished 4 "gnatmake: project file not found").

(** The sample harness with a job loop that removes the output directory. *)
Definition wiping_harness : Harness := {|
  sys_executable := sys_executable sample_harness;
  os_pathsep := os_pathsep sample_harness;
  parse_args := parse_args sample_harness;
  Env := Env sample_harness;
  add_search_path := add_search_path sample_harness;
  MainLoop := λ _ _ _ _ w, (set_fs (rmtree "out") w, Returned tt);
  ReportDiff_text := ReportDiff_text sample_harness;
|}.

(** The sample harness with an option parser that rejects the command line. *)
Definition rejecting_harness : Harness := {|
  sys_executable := sys_executable sample_harness;
  os_pathsep := os_pathsep sample_harness;
  parse_args := raise (SystemExit 2);
  Env := Env sample_harness;
  add_search_path := add_search_path sample_harness;
  MainLoop := MainLoop sample_harness;
  ReportDiff_text := ReportDiff_text sample_harness;
|}.

(** * Properties *)

(** ** Strings *)

Lemma append_nil_l (s : string) : "" +:+ s = s.
Proof. reflexivity. Qed.

Lemma append_cons (c : ascii) (s r : string) :
  String c s +:+ r = String c (s +:+ r).
Proof. reflexivity. Qed.

Lemma append_nil_r (s : string) : s +:+ "" = s.
Proof. induction s as [|c s IH]; [done | by rewrite append_cons, IH]. Qed.

Lemma append_assoc (s1 s2 s3 : string) : (s1 +:+ s2) +:+ s3 = s1 +:+ (s2 +:+ s3).
Proof. induction s1 as [|c s1 IH]; [done | by rewrite !append_cons, IH]. Qed.

Lemma append_length (s1 s2 : string) :
  String.length (s1 +:+ s2) = String.length s1 + String.length s2.
Proof. induction s1 as [|c s1 IH]; [done | rewrite append_cons; simpl; lia]. Qed.

Lemma append_inv_l (p r1 r2 : string) : p +:+ r1 = p +:+ r2 → r1 = r2.
Proof.
  induction p as [|c p IH]; [done |]. rewrite !append_cons. intros [= H]. auto.
Qed.

Lemma startswith_spec (s p : string) :
  startswith s p = true ↔ ∃ r, s = p +:+ r.
Proof.
  revert s. induction p as [|a p IH]; intros s; simpl.
  - split; [intros _; by exists s | done].
  - destruct s as [|b s].
    + split; [done | intros [r Hr]; discriminate].
    + destruct (Ascii.eqb_spec a b) as [->|Hne].
      * rewrite IH. split; intros [r Hr]; exists r.
        -- by rewrite append_cons, Hr.
        -- rewrite append_cons in Hr. congruence.
      * split; [done | intros [r Hr]; rewrite append_cons in Hr; congruence].
Qed.

Lemma str_in_spec (x s : string) : str_in x s = true ↔ contains s x.
Proof.
  unfold contains. induction s as [|c s IH]; simpl.
  - rewrite orb_false_r, startswith_spec. split.
    + intros [r Hr]. exists "", r. done.
    + intros ([|c a] & b & Hab); [by exists b | discriminate].
  - rewrite orb_true_iff, startswith_spec, IH. split.
    + intros [[r Hr] | (a & b & Hab)].
      * exists "", r. done.
      * exists (String c a), b. by rewrite append_cons, Hab.
    + intros ([|d a] & b & Hab).
      * left. by exists b.
      * right. exists a, b. rewrite append_cons in Hab. congruence.
Qed.

Lemma str_in_empty (s : string) : str_in "" s = true.
Proof. apply str_in_spec. by exists "", s. Qed.

Lemma str_split_nonempty (sep : ascii) (s : string) : str_split sep s ≠ [].
Proof.
  destruct s as [|c s]; simpl; [done |].
  destruct (Ascii.eqb c sep); [done |]. by destruct (str_split sep s).
Qed.

Lemma str_join_cons (sep x : string) (l : list string) :
  l ≠ [] → str_join sep (x :: l) = x +:+ sep +:+ str_join sep l.
Proof. by destruct l. Qed.

(** Joining the fields of a split gives the string back. *)
Lemma str_join_split (sep : ascii) (s : string) :
  str_join (String sep "") (str_split sep s) = s.
Proof.
  induction s as [|c s IH]; [done |]. cbn [str_split].
  pose proof (str_split_nonempty sep s) as Hne.
  destruct (Ascii.eqb_spec c sep) as [->|_].
  - rewrite (str_join_cons _ _ _ Hne), IH. done.
  - destruct (str_split sep s) as [|x l]; [done |].
    destruct l as [|y l].
    + cbn [str_join] in *. by rewrite IH.
    + rewrite str_join_cons in IH |- * by done.
      by rewrite append_cons, IH.
Qed.

(** ** Test discovery *)

Lemma filter_all {A : Type} (f : A → bool) (l : list A) :
  (∀ x, f x = true) → List.filter f l = l.
Proof.
  intros Hf. induction l as [|x l IH]; simpl; [done |]. by rewrite Hf, IH.
Qed.

Lemma filter_sublist {A : Type} (f : A → bool) (l : list A) :
  List.filter f l `sublist_of` l.
Proof.
  induction l as [|x l IH]; simpl; [constructor |].
  destruct (f x); by constructor.
Qed.

Lemma filter_list_unfold (glob : string → list string) (pattern f : string) :
  filter_list glob pattern f = List.filter (λ t, str_in f t) (glob pattern).
Proof.
  unfold filter_list. destruct f as [|c f]; simpl; [| done].
  symmetry. apply filter_all. intros t. apply str_in_empty.
Qed.

(** C2. [filter_list(pattern, f)] is the glob expansion of [pattern]
    restricted to the paths that contain [f] as a substring, in the
    expansion's order and multiplicity; being in the result is being in the
    expansion and being of the form [a ++ f ++ b]; and for the empty [f]
    the result is the whole expansion. *)
Theorem filter_list_exact (glob : string → list string) (pattern f : string) :
  filter_list glob pattern f = List.filter (λ t, str_in f t) (glob pattern)
  ∧ (∀ t, t ∈ filter_list glob pattern f ↔ t ∈ glob pattern ∧ contains t f)
  ∧ filter_list glob pattern "" = glob pattern.
Proof.
  split; [apply filter_list_unfold |]. split; [| done].
  intros t. rewrite filter_list_unfold, !list_elem_of_In, filter_In.
  by rewrite str_in_spec.
Qed.

(** C8. The result of [filter_list] is a subsequence of the glob
    expansion: it is obtained by dropping elements, so the order is the
    expansion's, every path of the result is a path of the expansion, and no
    path occurs more often in the result than in the expansion. *)
Theorem filter_list_subsequence (glob : string → list string) (pattern f : string) :
  filter_list glob pattern f `sublist_of` glob pattern
  ∧ (∀ t, t ∈ filter_list glob pattern f → t ∈ glob pattern)
  ∧ (∀ t, count_occ String.string_dec (filter_list glob pattern f) t
          ≤ count_occ String.string_dec (glob pattern) t)
  ∧ (NoDup (glob pattern) → NoDup (filter_list glob pattern f)).
Proof.
  rewrite filter_list_unfold.
  pose proof (filter_sublist (λ t, str_in f t) (glob pattern)) as Hsub.
  split; [done |]. split; [| split].
  - intros t Ht. by eapply elem_of_sublist.
  - intros t. generalize (glob pattern). intros l.
    induction l as [|x l IH]; simpl; [done |].
    destruct (str_in f x); simpl; destruct (String.string_dec x t); lia.
  - intros Hnd. by eapply sublist_NoDup.
Qed.

(** ** Discriminants and the command line *)

(** C1 (what the code does). The discriminant list starts with [ALL]
    twice, then the platform and the triplet, then the user's
    discriminants; so [ALL] occurs at least twice in it, and the [-d]
    argument of every test command starts with [ALL,ALL,]. *)
Theorem build_discs_repeats_ALL (h : Harness) (env : target_env) (o : options)
    (result_dir test : string) :
  build_discs env o = "ALL" :: "ALL" :: platform env :: triplet env :: opt_discs o
  ∧ 2 ≤ count_occ String.string_dec (build_discs env o) "ALL"
  ∧ cmd (test_build_cmd h (build_discs env o) result_dir o test) !! 3 =
      Some ("ALL,ALL," +:+ str_join "," (platform env :: triplet env :: opt_discs o)).
Proof.
  assert (build_discs env o
          = "ALL" :: "ALL" :: platform env :: triplet env :: opt_discs o) as ->.
  { unfold build_discs. destruct (opt_discs o); simpl; done. }
  split; [done |]. split.
  - simpl. lia.
  - unfold test_build_cmd.
    destruct (opt_verbose o), (truthy_opt (opt_host o)),
      (truthy_opt (opt_target o)), (opt_enable_cleanup o); reflexivity.
Qed.




(** ** Running monadic code *)

Ltac run := cbv [mbind M_bind mret M_ret gets print raise try_except].

Lemma bind_returned {A B : Type} (m : M A) (k : A → M B) (w w' : world) (a : A) :
  m w = (w', Returned a) → (m ≫= k) w = k a w'.
Proof. intros H. run. by rewrite H. Qed.

Lemma bind_raised {A B : Type} (m : M A) (k : A → M B) (w w' : world) (e : exn) :
  m w = (w', Raised e) → (m ≫= k) w = (w', Raised e).
Proof. intros H. run. by rewrite H. Qed.

(** ** Module-level set-up *)

Lemma lower_char_upper (c : ascii) :
  is_upper c = true →
  Ascii.nat_of_ascii (lower_char c) = Ascii.nat_of_ascii c + 32.
Proof.
  unfold lower_char. intros H. rewrite H. unfold is_upper in H.
  apply andb_true_iff in H as [H1 H2].
  apply Nat.leb_le in H1, H2. apply Ascii.nat_ascii_embedding. lia.
Qed.

Lemma lower_char_other (c : ascii) : is_upper c = false → lower_char c = c.
Proof. unfold lower_char. by intros ->. Qed.

Lemma lower_char_not_upper (c : ascii) : is_upper (lower_char c) = false.
Proof.
  destruct (is_upper c) eqn:Hc.
  - unfold is_upper at 1. rewrite (lower_char_upper c Hc).
    unfold is_upper in Hc. apply andb_true_iff in Hc as [H1 H2].
    apply Nat.leb_le in H1, H2. apply andb_false_iff. right.
    apply Nat.leb_gt. lia.
  - by rewrite (lower_char_other c Hc).
Qed.

Lemma lower_length (s : string) : String.length (lower s) = String.length s.
Proof. induction s as [|c s IH]; simpl; congruence. Qed.

Lemma lower_get (s : string) (i : nat) :
  String.get i (lower s) = lower_char <$> String.get i s.
Proof.
  revert i. induction s as [|c s IH]; intros [|i]; simpl; auto.
Qed.

Lemma lower_idempotent (s : string) : lower (lower s) = lower s.
Proof.
  induction s as [|c s IH]; simpl; [done |].
  by rewrite IH, (lower_char_other _ (lower_char_not_upper c)).
Qed.

(** [lower_char] against the two alphabets, byte by byte. *)
Lemma lower_char_lowercase_of (c : ascii) : lower_char c = lowercase_of c.
Proof. destruct c as [[] [] [] [] [] [] [] []]; reflexivity. Qed.

Lemma lowercase_of_not_upper (c : ascii) :
  char_in (lowercase_of c) upper_letters = false.
Proof. destruct c as [[] [] [] [] [] [] [] []]; reflexivity. Qed.

Lemma lowercase_of_other (c : ascii) :
  char_in c upper_letters = false → lowercase_of c = c.
Proof.
  destruct c as [[] [] [] [] [] [] [] []]; intros H;
    first [reflexivity | discriminate H].
Qed.

Lemma lower_no_upper (v : string) (c : ascii) :
  char_in c upper_letters = true → char_in c (lower v) = false.
Proof.
  intros Hc. induction v as [|a v IH]; [done |].
  cbn [lower char_in]. rewrite IH, orb_false_r.
  apply Ascii.eqb_neq. intros ->.
  by rewrite lower_char_lowercase_of, lowercase_of_not_upper in Hc.
Qed.

Lemma lower_without_upper (v : string) :
  (∀ c, char_in c upper_letters = true → char_in c v = false) → lower v = v.
Proof.
  induction v as [|a v IH]; [done |]. intros H. cbn [lower].
  assert (char_in a upper_letters = false) as Ha.
  { destruct (char_in a upper_letters) eqn:E; [| done].
    specialize (H a E). cbn [char_in] in H. by rewrite Ascii.eqb_refl in H. }
  rewrite lower_char_lowercase_of, (lowercase_of_other a Ha). f_equal.
  apply IH. intros c Hc. specialize (H c Hc). cbn [char_in] in H.
  by apply orb_false_iff in H as [_ H].
Qed.

(** C9. The platform and build names that enter the driver search path
    are the values of [PLATFORM] and [PRJ_BUILD] with every letter [A]..[Z]
    replaced by its lower-case letter (same length, other characters as they
    are, no upper-case letter left) whenever the variable is set, also when
    it is set to the empty string; [native] and [debug] are used only for
    an unset variable.  The path built from them is appended, with [bin] and
    with [rbin], to [PATH].  What lower-casing does is said by the two
    alphabets: the character at each place is the letter of [a]..[z] that
    stands where the character of the value stands in [A]..[Z], and the
    character of the value itself when it is none of these; no letter of
    [A]..[Z] is left, and a value without one is used as it is. *)
Theorem search_path_lowercased (h : Harness) (w : world) :
  PLATFORM (environ w) = from_option lower "native" (environ w !! "PLATFORM")
  ∧ PRJ_BUILD (environ w) = from_option lower "debug" (environ w !! "PRJ_BUILD")
  ∧ ep w = cwd w +:+ "/../.build/"
             +:+ from_option lower "native" (environ w !! "PLATFORM") +:+ "/"
             +:+ from_option lower "debug" (environ w !! "PRJ_BUILD") +:+ "/static/"
  ∧ (∀ v i, String.length (lower v) = String.length v
            ∧ String.get i (lower v) = lower_char <$> String.get i v
            ∧ from_option is_upper false (String.get i (lower v)) = false)
  ∧ module_setup h w =
      match environ w !! "PATH" with
      | None => (w, Raised (Exception "TypeError" "unsupported operand type(s) for +"))
      | Some path =>
          (set_environ <["PATH" := path +:+ os_pathsep h +:+ ep w +:+ "bin"
                                   +:+ os_pathsep h +:+ ep w +:+ "rbin"]> w,
           Returned tt)
      end
  ∧ (∀ v i, String.get i (lower v) = lowercase_of <$> String.get i v)
  ∧ (∀ v c, char_in c upper_letters = true → char_in c (lower v) = false)
  ∧ (∀ v, (∀ c, char_in c upper_letters = true → char_in c v = false) →
          lower v = v)
  ∧ (∀ path p b,
       environ w !! "PATH" = Some path →
       environ w !! "PLATFORM" = Some p → environ w !! "PRJ_BUILD" = Some b →
       environ (module_setup h w).1 !! "PATH" =
         Some (path +:+ os_pathsep h
                 +:+ cwd w +:+ "/../.build/" +:+ lower p +:+ "/" +:+ lower b
                 +:+ "/static/bin" +:+ os_pathsep h
                 +:+ cwd w +:+ "/../.build/" +:+ lower p +:+ "/" +:+ lower b
                 +:+ "/static/rbin")).
Proof.
  assert (PLATFORM (environ w)
          = from_option lower "native" (environ w !! "PLATFORM")) as HP.
  { unfold PLATFORM. by destruct (environ w !! "PLATFORM"). }
  assert (PRJ_BUILD (environ w)
          = from_option lower "debug" (environ w !! "PRJ_BUILD")) as HB.
  { unfold PRJ_BUILD. by destruct (environ w !! "PRJ_BUILD"). }
  split; [done |]. split; [done |]. split; [| split; [| split; [done |]]].
  - unfold ep. by rewrite HP, HB.
  - intros v i. split; [apply lower_length |]. split; [apply lower_get |].
    rewrite lower_get. destruct (String.get i v); simpl; [| done].
    apply lower_char_not_upper.
  - split; [| split; [| split]].
    + intros v i. rewrite lower_get.
      destruct (String.get i v); cbn; [| done]. by rewrite lower_char_lowercase_of.
    + apply lower_no_upper.
    + apply lower_without_upper.
    + intros path p b Hpath Hp Hb. unfold module_setup. rewrite Hpath.
      cbn [fst environ set_environ]. rewrite lookup_insert_eq.
      unfold ep. rewrite HP, HB, Hp, Hb. cbn [from_option].
      rewrite !append_assoc. reflexivity.
Qed.

(** ** Option parsing *)

(** C10. When [parse_args] returns, [__parse_options] returns too; the
    filter [run_test] is the first positional argument when there is one,
    announced on the output, and the empty string when there is none; the
    returned options are built from that first argument and the parsed
    options alone, so no further positional argument has any effect. *)
Theorem parse_options_first_positional (h : Harness) (w w1 : world) (m : parsed) :
  parse_args h w = (w1, Returned m) →
  __parse_options h w =
    (match p_args m with
     | [] => w1
     | a :: _ => add_stdout ("Running only test '" +:+ a +:+ "'") w1
     end,
     Returned
       (Options
          match p_args m with [] => "" | a :: _ => a end
          match p_discs m with
          | Some d => if truthy d then str_split "," d else []
          | None => []
          end
          (p_output_dir m) (p_tmp m) (p_verbose m) (p_host m) (p_target m)
          (p_enable_cleanup m) (p_view_diffs m) (p_old_result_dir m)
          (p_mainloop_jobs m))).
Proof.
  intros H. unfold __parse_options. rewrite (bind_returned _ _ _ _ _ H).
  destruct (p_args m) as [|a rest]; reflexivity.
Qed.

(** ** The top level *)

(** C6 (as the code has it). When [main] raises [AssertionError], the
    [__main__] block returns normally after printing [ERROR: ] and the
    message on the output; nothing reaches the error stream, everything
    else in the world is as [main] left it, and the interpreter ends the
    process with status 0. *)
Theorem assertion_caught_exit_zero (h : Harness) (w w1 : world) (msg : string) :
  main h w = (w1, Raised (AssertionError msg)) →
  __main__ h w = (add_stdout ("ERROR: " +:+ msg) w1, Returned tt)
  ∧ python (__main__ h) w = (add_stdout ("ERROR: " +:+ msg) w1, 0%Z)
  ∧ stderr (python (__main__ h) w).1 = stderr w1.
Proof.
  intros H.
  assert (__main__ h w = (add_stdout ("ERROR: " +:+ msg) w1, Returned tt)) as E.
  { unfold __main__. run. by rewrite H. }
  split; [done |]. unfold python. by rewrite E.
Qed.

(** ** The report *)

Lemma isdir_insert_file (p q c : string) (m : gmap string node) :
  isdir p m = false → isdir q (<[p := File c]> m) = isdir q m.
Proof.
  unfold isdir. intros H. destruct (decide (p = q)) as [->|Hne].
  - rewrite lookup_insert_eq, H. by apply bool_decide_eq_false.
  - by rewrite lookup_insert_ne.
Qed.

Lemma writable_insert_file (p q c : string) (m : gmap string node) :
  writable p m = true → writable q (<[p := File c]> m) = writable q m.
Proof.
  unfold writable. intros H. apply andb_true_iff in H as [H _].
  apply negb_true_iff in H. by rewrite !(isdir_insert_file p).
Qed.



(** ** More on strings and paths *)

Lemma truthy_true (s : string) : truthy s = true ↔ s ≠ "".
Proof. destruct s; simpl; split; congruence. Qed.

Lemma truthy_append_r (a b : string) : truthy b = true → truthy (a +:+ b) = true.
Proof. destruct a; [done | by rewrite append_cons]. Qed.

Lemma char_in_append (c : ascii) (a b : string) :
  char_in c (a +:+ b) = char_in c a || char_in c b.
Proof.
  induction a as [|d a IH]; [done |].
  rewrite append_cons. simpl. by rewrite IH, orb_assoc.
Qed.

Lemma has_magic_append (a b : string) :
  has_magic (a +:+ b) = has_magic a || has_magic b.
Proof.
  unfold has_magic. rewrite !char_in_append.
  destruct (char_in "*" a), (char_in "?" a), (char_in "[" a),
    (char_in "*" b), (char_in "?" b), (char_in "[" b); done.
Qed.

Lemma endswith_refl (s : string) : endswith s s = true.
Proof. destruct s; simpl; [done |]. by rewrite Ascii.eqb_refl, String.eqb_refl. Qed.

Lemma endswith_spec (s p : string) : endswith s p = true ↔ ∃ r, s = r +:+ p.
Proof.
  induction s as [|c s IH].
  - simpl. destruct p; simpl; split; try done.
    + intros _. by exists "".
    + intros [[|] Hr]; discriminate.
  - cbn [endswith]. destruct (String.eqb_spec (String c s) p) as [<-|Hne].
    + split; [intros _; by exists "" | done].
    + rewrite IH. split.
      * intros [r ->]. by exists (String c r).
      * intros [[|d r] Hr].
        -- by rewrite append_nil_l in Hr.
        -- rewrite append_cons in Hr. injection Hr as -> ->. by exists r.
Qed.

Lemma endswith_append (a b : string) : endswith (a +:+ b) b = true.
Proof. apply endswith_spec. by exists a. Qed.

Lemma endswith_slash_append (a b : string) :
  truthy b = true → endswith (a +:+ b) "/" = endswith b "/".
Proof.
  intros Hb. induction a as [|c a IH]; [done |].
  rewrite append_cons. cbn [endswith].
  destruct (String.eqb_spec (String c (a +:+ b)) "/") as [E|_]; [| done].
  injection E as _ E. destruct a; [| by rewrite append_cons in E].
  rewrite append_nil_l in E. by subst b.
Qed.

Lemma startswith_append (p r : string) : startswith (p +:+ r) p = true.
Proof. apply startswith_spec. by exists r. Qed.

Lemma startswith_length (s p : string) :
  startswith s p = true → String.length p ≤ String.length s.
Proof. intros [r ->]%startswith_spec. rewrite append_length. lia. Qed.

Lemma removeprefix_spec (p s r : string) :
  removeprefix p s = Some r ↔ s = p +:+ r.
Proof.
  revert s. induction p as [|a p IH]; intros s; simpl.
  - rewrite append_nil_l. split; congruence.
  - rewrite append_cons. destruct s as [|b s]; [split; discriminate |].
    destruct (Ascii.eqb_spec a b) as [->|Hne].
    + rewrite IH. split; congruence.
    + split; [discriminate | congruence].
Qed.

(** *** [posixpath.split] and [posixpath.join] on plain paths *)

Lemma rstrip_slash_append (d : string) : rstrip_slash (d +:+ "/") = rstrip_slash d.
Proof.
  induction d as [|c d IH]; [done |]. rewrite append_cons. simpl. by rewrite IH.
Qed.

Lemma rstrip_slash_id (d : string) : endswith d "/" = false → rstrip_slash d = d.
Proof.
  induction d as [|c d IH]; [done |]. cbn [endswith rstrip_slash].
  destruct (String.eqb_spec (String c d) "/") as [|Hne]; [done |].
  intros H. rewrite (IH H). destruct (Ascii.eqb_spec c "/") as [->|]; [| done].
  destruct d; [done | done].
Qed.

Lemma cut_last_slash_no_slash (t : string) :
  char_in "/" t = false → cut_last_slash t = ("", t).
Proof.
  induction t as [|c t IH]; [done |]. cbn [char_in cut_last_slash].
  intros [Hc Ht]%orb_false_iff. rewrite (IH Ht). cbn [truthy].
  rewrite Ascii.eqb_sym in Hc. by rewrite Hc.
Qed.

Lemma cut_last_slash_append (d t : string) :
  char_in "/" t = false → cut_last_slash (d +:+ "/" +:+ t) = (d +:+ "/", t).
Proof.
  intros Ht. induction d as [|c d IH].
  - change ("" +:+ "/" +:+ t) with (String "/" t). cbn [cut_last_slash].
    by rewrite (cut_last_slash_no_slash t Ht).
  - change (String c d +:+ "/" +:+ t) with (String c (d +:+ "/" +:+ t)).
    change (String c d +:+ "/") with (String c (d +:+ "/")).
    cbn [cut_last_slash]. rewrite IH.
    assert (truthy (d +:+ "/") = true) as -> by by apply truthy_append_r.
    by rewrite orb_true_r.
Qed.

Lemma path_split_append (d t : string) :
  truthy d = true → endswith d "/" = false → char_in "/" t = false →
  path_split (d +:+ "/" +:+ t) = (d, t).
Proof.
  intros Hd Hs Ht. unfold path_split.
  rewrite (cut_last_slash_append d t Ht), rstrip_slash_append.
  by rewrite (rstrip_slash_id d Hs), Hd.
Qed.

Lemma cut_last_slash_tail (f : string) :
  truthy f = true → endswith f "/" = false → truthy (cut_last_slash f).2 = true.
Proof.
  induction f as [|c f IH]; [done |]. intros _ Hs. simpl.
  destruct (cut_last_slash f) as [hd tl] eqn:E.
  destruct (Ascii.eqb c "/" || truthy hd) eqn:Hc; [| done]. simpl.
  destruct f as [|c' f'].
  - injection E as <- <-. simpl in Hc. rewrite orb_false_r in Hc.
    apply Ascii.eqb_eq in Hc as ->. done.
  - simpl in IH. apply IH; [done |].
    cbn [endswith] in Hs.
    destruct (String.eqb_spec (String c (String c' f')) "/"); [done |]. done.
Qed.

Lemma path_split_tail (f : string) :
  truthy f = true → endswith f "/" = false → truthy (path_split f).2 = true.
Proof.
  intros H1 H2. unfold path_split.
  pose proof (cut_last_slash_tail f H1 H2) as H.
  by destruct (cut_last_slash f).
Qed.

Lemma startswith_slash_char_in (n : string) :
  char_in "/" n = false → startswith n "/" = false.
Proof.
  destruct n as [|c n]; [done |]. simpl. intros [H _]%orb_false_iff.
  by rewrite H.
Qed.

Lemma path_join_plain (d n : string) :
  truthy d = true → endswith d "/" = false → char_in "/" n = false →
  path_join d n = d +:+ "/" +:+ n.
Proof.
  intros Hd Hs Hn. unfold path_join.
  by rewrite (startswith_slash_char_in n Hn), Hd, Hs.
Qed.

(** *** [plain] *)

Lemma plain_inv (p : string) :
  plain p = true →
  truthy p = true ∧ p ≠ "." ∧ has_magic p = false ∧ endswith p "/" = false.
Proof.
  unfold plain. rewrite !andb_true_iff, !negb_true_iff.
  intros [[[H1 H2] H3] H4]. repeat split; try done.
  intros ->. done.
Qed.

Lemma plain_child (d t : string) :
  plain d = true → truthy t = true → has_magic t = false →
  endswith t "/" = false → plain (d +:+ "/" +:+ t) = true.
Proof.
  intros (Hd & _ & Hm & _)%plain_inv Ht Htm Hts. unfold plain.
  rewrite !andb_true_iff, !negb_true_iff. repeat split.
  - apply truthy_append_r. done.
  - apply String.eqb_neq. intros E.
    apply (f_equal String.length) in E. rewrite !append_length in E.
    destruct d, t; simpl in *; try done; lia.
  - rewrite !has_magic_append, Hm, Htm. done.
  - rewrite endswith_slash_append; [| by apply truthy_append_r].
    change ("/" +:+ t) with (String "/" t). cbn [endswith].
    destruct (String.eqb_spec (String "/" t) "/") as [E|_]; [| done].
    injection E as ->. done.
Qed.

(** *** [beneath] *)

Lemma beneath_spec (f k : string) :
  beneath f k = true ↔ ∃ r, k = f +:+ "/" +:+ r.
Proof.
  unfold beneath. rewrite startswith_spec.
  split; intros [r ->]; exists r; by rewrite ?append_assoc.
Qed.

Lemma beneath_child (d n : string) : beneath d (d +:+ "/" +:+ n) = true.
Proof. apply beneath_spec. by exists n. Qed.

Lemma beneath_trans (f a k : string) :
  beneath f a = true → beneath a k = true → beneath f k = true.
Proof.
  rewrite !beneath_spec. intros [r1 ->] [r2 ->].
  exists (r1 +:+ "/" +:+ r2). by rewrite !append_assoc.
Qed.

Lemma beneath_length (f k : string) :
  beneath f k = true → String.length f < String.length k.
Proof.
  intros [r ->]%beneath_spec. rewrite !append_length. simpl. lia.
Qed.

Lemma beneath_irrefl (f : string) : beneath f f = false.
Proof.
  destruct (beneath f f) eqn:E; [| done]. apply beneath_length in E. lia.
Qed.

(** ** [fnmatch] and [glob] on the patterns of the script *)

Lemma fnmatch_literal (n p : string) :
  has_magic p = false → fnmatch n p = String.eqb n p.
Proof.
  revert n. induction p as [|c p IH]; intros n Hp.
  - by destruct n.
  - assert (Ascii.eqb c "*" = false ∧ Ascii.eqb c "?" = false ∧ has_magic p = false)
      as (H1 & H2 & H3).
    { unfold has_magic in *. cbn [char_in] in Hp.
      rewrite (Ascii.eqb_sym c "*"), (Ascii.eqb_sym c "?").
      destruct (Ascii.eqb "*" c), (Ascii.eqb "?" c), (Ascii.eqb "[" c),
        (char_in "*" p), (char_in "?" p), (char_in "[" p); done. }
    cbn [fnmatch]. rewrite H1, H2. destruct n as [|d n]; [done |].
    rewrite (IH n H3). cbn [String.eqb orb]. rewrite (Ascii.eqb_sym c d).
    by destruct (Ascii.eqb d c).
Qed.

Lemma fnmatch_star (n p : string) :
  has_magic p = false → fnmatch n ("*" +:+ p) = endswith n p.
Proof.
  intros Hp. change ("*" +:+ p) with (String "*" p). cbn [fnmatch].
  rewrite Ascii.eqb_refl.
  induction n as [|d n IH]; cbn [endswith]; rewrite (fnmatch_literal _ p Hp).
  - by destruct (String.eqb "" p).
  - rewrite IH. by destruct (String.eqb (String d n) p).
Qed.

Lemma dir_prefix_plain (d : string) : plain d = true → dir_prefix d = d +:+ "/".
Proof.
  intros (_ & Hdot & _ & Hs)%plain_inv. unfold dir_prefix.
  destruct (String.eqb_spec d "."); [done |]. by rewrite Hs.
Qed.

Lemma entry_name_spec (d k n : string) :
  plain d = true →
  entry_name d k = Some n ↔
    k = d +:+ "/" +:+ n ∧ truthy n = true ∧ char_in "/" n = false.
Proof.
  intros Hd. unfold entry_name. rewrite (dir_prefix_plain d Hd).
  destruct (removeprefix (d +:+ "/") k) as [r|] eqn:E; simpl.
  - apply removeprefix_spec in E. rewrite append_assoc in E. subst k.
    destruct (truthy r && negb (char_in "/" r)) eqn:Hr.
    + apply andb_true_iff in Hr as [H1 H2%negb_true_iff]. split.
      * by intros [= <-].
      * intros (H & _ & _). apply append_inv_l in H.
        change ("/" +:+ r) with (String "/" r) in H.
        change ("/" +:+ n) with (String "/" n) in H. congruence.
    + split; [done |]. intros (H & H1 & H2). apply append_inv_l in H.
      change ("/" +:+ r) with (String "/" r) in H.
      change ("/" +:+ n) with (String "/" n) in H. injection H as ->.
      by rewrite H1, H2 in Hr.
  - split; [done |]. intros (-> & _ & _).
    assert (removeprefix (d +:+ "/") (d +:+ "/" +:+ n) = Some n) as E'.
    { apply removeprefix_spec. by rewrite append_assoc. }
    congruence.
Qed.

Lemma elem_of_listdir (d n : string) (m : gmap string node) (names : list string) :
  plain d = true → listdir d m = Some names →
  n ∈ names ↔
    is_Some (m !! (d +:+ "/" +:+ n)) ∧ truthy n = true ∧ char_in "/" n = false.
Proof.
  intros Hd. unfold listdir.
  destruct (String.eqb d "." || isdir d m); [| done]. intros [= <-].
  rewrite list_elem_of_omap. split.
  - intros (k & Hk & Hn). apply (entry_name_spec d k n Hd) in Hn as (-> & H1 & H2).
    apply list_elem_of_fmap in Hk as ([k' x] & Hk & Hx). simpl in Hk. subst k'.
    apply elem_of_map_to_list in Hx. split; [by exists x | done].
  - intros ([x Hx] & H1 & H2). exists (d +:+ "/" +:+ n). split.
    + apply list_elem_of_fmap. exists (d +:+ "/" +:+ n, x). split; [done |].
      by apply elem_of_map_to_list.
    + by apply entry_name_spec.
Qed.

Lemma listdir_isdir (d : string) (m : gmap string node) :
  plain d = true → listdir d m = None ↔ isdir d m = false.
Proof.
  intros (_ & Hdot & _)%plain_inv. unfold listdir.
  destruct (String.eqb_spec d "."); [done |]. simpl.
  destruct (isdir d m); split; done.
Qed.

(** A plain path is a pattern that stands for itself. *)
Lemma glob_plain (f : string) (m : gmap string node) :
  plain f = true → glob f m = if lexists f m then [f] else [].
Proof.
  intros (Ht & _ & Hm & Hs)%plain_inv. unfold glob. cbn [iglob].
  pose proof (path_split_tail f Ht Hs) as Htl.
  destruct (path_split f) as [dn bn]. simpl in Htl.
  by rewrite Hm, Htl.
Qed.

(** The pattern [d/*ext] stands for the entries of [d] that do not start
    with a dot and end in [ext]. *)
Lemma elem_of_glob_star (d ext g : string) (m : gmap string node) :
  plain d = true → has_magic ext = false → char_in "/" ext = false →
  g ∈ glob (d +:+ "/*" +:+ ext) m ↔
    isdir d m = true ∧
    ∃ n, g = d +:+ "/" +:+ n ∧ is_Some (m !! g) ∧ truthy n = true ∧
         char_in "/" n = false ∧ hidden n = false ∧ endswith n ext = true.
Proof.
  intros Hd Hm Hsl. pose proof (plain_inv d Hd) as (Ht & _ & Hdm & Hs).
  unfold glob. cbn [iglob].
  change (d +:+ "/*" +:+ ext) with (d +:+ "/" +:+ ("*" +:+ ext)).
  assert (char_in "/" ("*" +:+ ext) = false) as Hsl'.
  { change ("*" +:+ ext) with (String "*" ext). cbn [char_in]. by rewrite Hsl. }
  rewrite (path_split_append d _ Ht Hs Hsl').
  assert (has_magic (d +:+ "/" +:+ "*" +:+ ext) = true) as ->.
  { rewrite !has_magic_append. by rewrite orb_true_r. }
  cbn [negb]. rewrite Ht, Hdm, andb_false_r. cbn [negb].
  assert (has_magic ("*" +:+ ext) = true) as -> by done.
  cbn [flat_map]. rewrite app_nil_r. unfold glob1. rewrite Ht.
  destruct (listdir d m) as [names|] eqn:El.
  - assert (isdir d m = true) as Hdir.
    { destruct (isdir d m) eqn:E; [done |].
      apply (listdir_isdir d m Hd) in E. congruence. }
    change (hidden ("*" +:+ ext)) with false. cbv iota.
    rewrite list_elem_of_fmap. split.
    + intros (n & -> & Hn). apply list_elem_of_In in Hn.
      apply filter_In in Hn as [Hn Hf]. apply filter_In in Hn as [Hn Hh].
      apply list_elem_of_In in Hn.
      apply (elem_of_listdir d n m names Hd El) in Hn as (Hx & H1 & H2).
      rewrite (fnmatch_star n ext Hm) in Hf. apply negb_true_iff in Hh.
      split; [done |]. exists n. rewrite (path_join_plain d n Ht Hs H2). done.
    + intros (_ & n & -> & Hx & H1 & H2 & Hh & He). exists n. split.
      * by rewrite (path_join_plain d n Ht Hs H2).
      * apply list_elem_of_In, filter_In. split.
        -- apply filter_In. split; [| by rewrite Hh].
           apply list_elem_of_In. by apply (elem_of_listdir d n m names Hd El).
        -- by rewrite (fnmatch_star n ext Hm).
  - apply (listdir_isdir d m Hd) in El. rewrite El. split.
    + intros H. by apply elem_of_nil in H.
    + by intros [? _].
Qed.

(** *** The bound on the recursion of [iglob] is enough *)

Lemma cut_last_slash_eq (p : string) :
  p = (cut_last_slash p).1 +:+ (cut_last_slash p).2.
Proof.
  induction p as [|c p IH]; [done |]. cbn [cut_last_slash].
  destruct (cut_last_slash p) as [hd tl]. simpl in IH.
  destruct (Ascii.eqb c "/" || truthy hd) eqn:E; simpl.
  - by rewrite append_cons, <- IH.
  - apply orb_false_iff in E as [_ E]. destruct hd; [| done].
    by rewrite append_nil_l in *; subst.
Qed.

Lemma rstrip_slash_length (s : string) :
  String.length (rstrip_slash s) ≤ String.length s.
Proof.
  induction s as [|c s IH]; [done |]. cbn [rstrip_slash].
  destruct (Ascii.eqb c "/" && negb (truthy (rstrip_slash s))); simpl; lia.
Qed.

Lemma rstrip_slash_length_eq (s : string) :
  String.length (rstrip_slash s) = String.length s → rstrip_slash s = s.
Proof.
  induction s as [|c s IH]; [done |]. cbn [rstrip_slash].
  destruct (Ascii.eqb c "/" && negb (truthy (rstrip_slash s))); simpl.
  - discriminate.
  - intros [= H]. by rewrite (IH H).
Qed.

Lemma path_split_head_shorter (p : string) :
  (path_split p).1 ≠ p → String.length (path_split p).1 < String.length p.
Proof.
  unfold path_split. pose proof (cut_last_slash_eq p) as E.
  destruct (cut_last_slash p) as [hd tl]. simpl in E.
  pose proof (rstrip_slash_length hd) as Hr.
  assert (String.length p = String.length hd + String.length tl) as Hl
    by (rewrite E at 1; apply append_length).
  destruct (truthy (rstrip_slash hd)) eqn:Et; simpl; intros Hne.
  - destruct (decide (String.length (rstrip_slash hd) = String.length p)) as [Heq|];
      [| lia].
    destruct Hne. assert (String.length tl = 0) as Htl by lia.
    destruct tl; [| done]. rewrite append_nil_r in E. subst hd.
    apply rstrip_slash_length_eq. lia.
  - destruct (decide (String.length hd = String.length p)) as [Heq|]; [| lia].
    destruct Hne. assert (String.length tl = 0) as Htl by lia.
    destruct tl; [| done]. by rewrite append_nil_r in E.
Qed.

(** Any two bounds above the length of the pattern give the same result:
    [glob] never stops for lack of fuel. *)
Lemma iglob_fuel (n1 n2 : nat) (p : string) (m : gmap string node) :
  String.length p < n1 → String.length p < n2 → iglob n1 p m = iglob n2 p m.
Proof.
  revert n2 p. induction n1 as [|n1 IH]; intros [|n2] p H1 H2; try lia.
  cbn [iglob]. pose proof (path_split_head_shorter p) as Hs.
  destruct (path_split p) as [dn bn]. simpl in Hs.
  destruct (negb (has_magic p)); [done |].
  destruct (negb (truthy dn)); [done |].
  destruct (String.eqb_spec dn p) as [|Hne]; [done |].
  cbn [negb andb]. destruct (has_magic dn); [| done].
  rewrite (IH n2 dn); [done | |]; specialize (Hs Hne); lia.
Qed.

Lemma glob_fuel (n : nat) (p : string) (m : gmap string node) :
  String.length p < n → iglob n p m = glob p m.
Proof. intros H. apply iglob_fuel; [done | lia]. Qed.

(** ** From the monadic clean-up to a function of the file system *)

Lemma set_fs_id (w : world) (f : gmap string node → gmap string node) :
  f (fs w) = fs w → set_fs f w = w.
Proof. destruct w. unfold set_fs. simpl. by intros ->. Qed.

Lemma set_fs_set_fs (w : world) (f g : gmap string node → gmap string node) :
  set_fs g (set_fs f w) = set_fs (λ m, g (f m)) w.
Proof. done. Qed.

Lemma set_fs_ext (w : world) (f g : gmap string node → gmap string node) :
  f (fs w) = g (fs w) → set_fs f w = set_fs g w.
Proof. unfold set_fs. by intros ->. Qed.

Lemma remove_dups_singleton (f : string) : remove_dups [f] = [f].
Proof.
  cbn. destruct (decide_rel elem_of f []) as [H|_]; [| done].
  by apply elem_of_nil in H.
Qed.

Lemma rm_plain (f : string) (w : world) :
  plain f = true → rm f true w = (set_fs (rm_effect f) w, Returned tt).
Proof.
  intros Hf. unfold rm. run. rewrite (glob_plain f (fs w) Hf).
  unfold rm_effect. destruct (lexists f (fs w)) eqn:E.
  - rewrite remove_dups_singleton. cbn [for_each]. run. unfold rm_one.
    rewrite E. f_equal. apply set_fs_ext. by rewrite E.
  - cbn. run. f_equal. symmetry. apply set_fs_id. by rewrite E.
Qed.

(** A loop whose every round rewrites the file system by a function of it. *)
Lemma for_each_set_fs {A : Type} (I : gmap string node → Prop)
    (g : A → gmap string node → gmap string node) (body : A → M unit) (l : list A) :
  (∀ x w, x ∈ l → I (fs w) →
     body x w = (set_fs (g x) w, Returned tt) ∧ I (g x (fs w))) →
  ∀ w, I (fs w) →
    for_each l body w = (set_fs (λ m, foldl (λ m x, g x m) m l) w, Returned tt)
    ∧ I (foldl (λ m x, g x m) (fs w) l).
Proof.
  induction l as [|x l IH]; intros Hbody w HI.
  - split; [| done]. cbn. run. f_equal. symmetry. by apply set_fs_id.
  - destruct (Hbody x w) as [E HI']; [by left | done |].
    destruct (IH (λ y w', λ Hy, Hbody y w' (list_elem_of_further _ _ _ Hy))
                (set_fs (g x) w) HI') as [E' HI''].
    split; [| done]. cbn [for_each]. rewrite (bind_returned _ _ _ _ _ E).
    by rewrite E'.
Qed.

Lemma plain_fs_subseteq (m m' : gmap string node) :
  plain_fs m → m' ⊆ m → plain_fs m'.
Proof.
  intros H Hsub k x Hk. apply (H k x). by eapply lookup_weaken.
Qed.

Lemma plain_fs_lookup (m : gmap string node) (k : string) :
  plain_fs m → is_Some (m !! k) → plain k = true.
Proof. intros H [x Hx]. by apply (H k x). Qed.

Lemma rm_effect_subseteq (f : string) (m : gmap string node) : rm_effect f m ⊆ m.
Proof.
  unfold rm_effect, rmtree. destruct (lexists f m); [| done].
  apply map_filter_subseteq.
Qed.

Lemma foldl_rm_effect_subseteq (l : list string) (m : gmap string node) :
  foldl (λ m f, rm_effect f m) m l ⊆ m.
Proof.
  revert m. induction l as [|f l IH]; intros m; [done |]. cbn.
  etrans; [apply IH | apply rm_effect_subseteq].
Qed.

Lemma for_each_rm (l : list string) (w : world) :
  Forall (λ f, plain f = true) l →
  for_each l (λ f, rm f true) w =
    (set_fs (λ m, foldl (λ m f, rm_effect f m) m l) w, Returned tt).
Proof.
  intros Hl.
  apply (for_each_set_fs (λ _, True) rm_effect (λ f, rm f true) l); [| done].
  intros f w' Hf _. split; [| done]. apply rm_plain.
  by apply (proj1 (Forall_forall _ _) Hl).
Qed.

Lemma artifact_ext_inv (ext : string) :
  ext ∈ artifact_exts →
  has_magic ext = false ∧ char_in "/" ext = false.
Proof.
  unfold artifact_exts. rewrite !elem_of_cons.
  intros [->|[->|[->|[->|H]]]]; [done.. | by apply elem_of_nil in H].
Qed.

Lemma sweep_subseteq (d ext : string) (m : gmap string node) : sweep d ext m ⊆ m.
Proof. apply foldl_rm_effect_subseteq. Qed.

Lemma sweep_step (d ext : string) (w : world) :
  plain d = true → ext ∈ artifact_exts → plain_fs (fs w) →
  (files ← gets (λ w, glob (d +:+ "/*" +:+ ext) (fs w));
   for_each files (λ file, rm file true)) w
  = (set_fs (sweep d ext) w, Returned tt).
Proof.
  intros Hd (Hm & Hs)%artifact_ext_inv Hp. run. rewrite for_each_rm; [done |].
  apply Forall_forall. intros g Hg.
  apply (elem_of_glob_star d ext g (fs w) Hd Hm Hs) in Hg as (_ & n & _ & Hx & _).
  by eapply plain_fs_lookup.
Qed.

Lemma clean_deletions_subseteq (d : string) (m : gmap string node) :
  clean_deletions d m ⊆ m.
Proof.
  unfold clean_deletions.
  etrans; [| apply (foldl_rm_effect_subseteq [d +:+ "/results"; d +:+ "/report"; "discs"])].
  generalize (foldl (λ m f, rm_effect f m) m [d +:+ "/results"; d +:+ "/report"; "discs"]).
  generalize artifact_exts. intros l. induction l as [|e l IH]; intros m'; [done |].
  cbn. etrans; [apply IH | apply sweep_subseteq].
Qed.

Lemma mkdir_run (p : string) (w : world) :
  mkdir p w =
    (set_fs (mkdir_fs p) w,
     if mkdir_ok p (fs w) then Returned tt
     else Raised (Exception "FileUtilsError" ("mkdir: " +:+ p))).
Proof.
  unfold mkdir, mkdir_fs, mkdir_ok. destruct (isdir p (fs w)) eqn:E; simpl.
  - f_equal. symmetry. apply set_fs_id. by rewrite E.
  - destruct (truthy p && _) eqn:E'.
    + f_equal. apply set_fs_ext. cbv beta. rewrite E. simpl. by rewrite E'.
    + f_equal. symmetry. apply set_fs_id. cbv beta. rewrite E. simpl.
      by rewrite E'.
Qed.

(** The clean-up changes nothing but the file system, which it maps to
    [clean_fs]; it returns unless the final [mkdir] fails. *)
Lemma clean_result_dir_run (d : string) (w : world) :
  plain_fs (fs w) →
  clean_result_dir d w =
    (set_fs (clean_fs d) w,
     if mkdir_ok d (if lexists d (fs w) then clean_deletions d (fs w) else fs w)
     then Returned tt
     else Raised (Exception "FileUtilsError" ("mkdir: " +:+ d))).
Proof.
  intros Hp. unfold clean_result_dir, clean_fs.
  rewrite (bind_returned _ _ w w (lexists d (fs w))) by done.
  destruct (lexists d (fs w)) eqn:Hex.
  - assert (plain d = true) as Hd.
    { apply (plain_fs_lookup (fs w) d Hp). unfold lexists in Hex.
      by apply bool_decide_eq_true in Hex. }
    pose proof (plain_inv d Hd) as (Ht & _ & Hm & Hs).
    assert (Forall (λ f, plain f = true)
              [d +:+ "/results"; d +:+ "/report"; "discs"]) as Hl.
    { repeat constructor; by apply plain_child. }
    pose proof (for_each_rm _ w Hl) as E1.
    set (w1 := set_fs (λ m, foldl (λ m f, rm_effect f m) m
                 [d +:+ "/results"; d +:+ "/report"; "discs"]) w) in *.
    destruct (for_each_set_fs plain_fs (sweep d)
                (λ ext, files ← gets (λ w, glob (d +:+ "/*" +:+ ext) (fs w));
                        for_each files (λ file, rm file true))
                artifact_exts) with (w := w1) as [E2 _].
    { intros ext w' Hext Hp'. split; [by apply sweep_step |].
      eapply plain_fs_subseteq; [exact Hp' | apply sweep_subseteq]. }
    { apply (plain_fs_subseteq (fs w)); [exact Hp |].
      apply (foldl_rm_effect_subseteq
               [d +:+ "/results"; d +:+ "/report"; "discs"]). }
    rewrite (bind_returned _ _ w _ tt
               (eq_trans (bind_returned _ _ w w1 tt E1) E2)).
    rewrite mkdir_run. unfold w1, set_fs.
    cbn [fs cwd environ stdout stderr]. rewrite Hex. reflexivity.
  - rewrite (bind_returned _ _ w w tt) by done. rewrite mkdir_run.
    unfold set_fs. cbn [fs cwd environ stdout stderr]. by rewrite Hex.
Qed.

(** ** Removing subtrees *)

Lemma lookup_rm_effect_ne (f q : string) (m : gmap string node) :
  q ≠ f → beneath f q = false → rm_effect f m !! q = m !! q.
Proof.
  intros H1 H2. unfold rm_effect, rmtree. destruct (lexists f m); [| done].
  destruct (m !! q) as [x|] eqn:E.
  - by apply map_lookup_filter_Some.
  - apply map_lookup_filter_None. by left.
Qed.

Lemma lookup_rm_effect_eq (f : string) (m : gmap string node) :
  rm_effect f m !! f = None.
Proof.
  unfold rm_effect, rmtree, lexists. case_bool_decide as E.
  - apply map_lookup_filter_None. right. intros x _ [H _]. done.
  - by apply eq_None_not_Some.
Qed.

Lemma lookup_rm_effect_gone (f q : string) (m : gmap string node) :
  is_Some (m !! q) → rm_effect f m !! q = None → q = f ∨ beneath f q = true.
Proof.
  intros [x Hx] Hn. destruct (decide (q = f)) as [|Hne]; [by left |].
  destruct (beneath f q) eqn:E; [by right |].
  rewrite (lookup_rm_effect_ne f q m Hne E) in Hn. congruence.
Qed.

Lemma lookup_subseteq_None (m m' : gmap string node) (k : string) :
  m' ⊆ m → m !! k = None → m' !! k = None.
Proof.
  intros Hsub Hk. destruct (m' !! k) as [x|] eqn:E; [| done].
  apply (lookup_weaken _ _ _ _ E) in Hsub. congruence.
Qed.

Lemma isdir_subseteq (m m' : gmap string node) (d : string) :
  m' ⊆ m → isdir d m' = true → isdir d m = true.
Proof.
  unfold isdir. intros Hsub H. apply bool_decide_eq_true in H.
  apply bool_decide_eq_true. by eapply lookup_weaken.
Qed.

Lemma foldl_rm_effect_frame (l : list string) (m : gmap string node) (q : string) :
  (∀ t, t ∈ l → q ≠ t ∧ beneath t q = false) →
  foldl (λ m f, rm_effect f m) m l !! q = m !! q.
Proof.
  revert m. induction l as [|f l IH]; intros m Hl; [done |]. cbn [foldl].
  rewrite IH by (intros t Ht; apply Hl; by right).
  destruct (Hl f) as [H1 H2]; [by left |]. by apply lookup_rm_effect_ne.
Qed.

Lemma foldl_rm_effect_gone (l : list string) (m : gmap string node) (t : string) :
  t ∈ l → foldl (λ m f, rm_effect f m) m l !! t = None.
Proof.
  revert m. induction l as [|f l IH]; intros m Ht.
  - by apply elem_of_nil in Ht.
  - cbn [foldl]. apply elem_of_cons in Ht as [->|Ht]; [| by apply IH].
    eapply lookup_subseteq_None; [apply foldl_rm_effect_subseteq |].
    apply lookup_rm_effect_eq.
Qed.

Lemma pruned_refl (m : gmap string node) : pruned m m.
Proof. split; done. Qed.

Lemma pruned_rm_effect (f : string) (m0 m : gmap string node) :
  pruned m0 m → pruned m0 (rm_effect f m).
Proof.
  intros [Hsub Hup]. split; [etrans; [apply rm_effect_subseteq | done] |].
  intros a k Hak [x Hk].
  assert (m !! k = Some x) as Hk'.
  { eapply lookup_weaken; [exact Hk | apply rm_effect_subseteq]. }
  rewrite <- (Hup a k Hak) by by exists x.
  unfold rm_effect in *. destruct (lexists f m); [| done]. unfold rmtree in *.
  apply map_lookup_filter_Some in Hk as [_ [Hne Hb]]. simpl in Hne, Hb.
  destruct (m !! a) as [y|] eqn:Ea.
  - apply map_lookup_filter_Some. split; [done |]. simpl. split.
    + intros ->. congruence.
    + destruct (beneath f a) eqn:Efa; [| done].
      rewrite (beneath_trans f a k Efa Hak) in Hb. done.
  - apply map_lookup_filter_None. by left.
Qed.

Lemma pruned_foldl (l : list string) (m0 m : gmap string node) :
  pruned m0 m → pruned m0 (foldl (λ m f, rm_effect f m) m l).
Proof.
  revert m. induction l as [|f l IH]; intros m H; [done |].
  cbn [foldl]. by apply IH, pruned_rm_effect.
Qed.

Lemma pruned_clean_deletions (d : string) (m : gmap string node) :
  pruned m (clean_deletions d m).
Proof.
  unfold clean_deletions.
  pose proof (pruned_foldl [d +:+ "/results"; d +:+ "/report"; "discs"] m m
                (pruned_refl m)) as H.
  revert H.
  generalize (foldl (λ m f, rm_effect f m) m [d +:+ "/results"; d +:+ "/report"; "discs"]).
  generalize artifact_exts. intros l. induction l as [|e l IH]; intros m' H; [done |].
  cbn [foldl]. apply IH. unfold sweep. by apply pruned_foldl.
Qed.

(** ** What the clean-up removes and what it keeps *)

Lemma not_covered_target (d q t : string) :
  ¬ covered d q → target d t → q ≠ t ∧ beneath t q = false.
Proof.
  intros Hq Ht. split.
  - intros ->. apply Hq. exists t. by split; [| left].
  - destruct (beneath t q) eqn:E; [| done]. destruct Hq. exists t.
    by split; [| right].
Qed.

Lemma artifact_name_intro (n ext : string) :
  ext ∈ artifact_exts → truthy n = true → char_in "/" n = false →
  hidden n = false → endswith n ext = true → artifact_name n = true.
Proof.
  intros Hext H1 H2 H3 H4. unfold artifact_name. rewrite H1, H2, H3.
  cbn [andb negb].
  apply existsb_exists. exists ext. split; [by apply list_elem_of_In | done].
Qed.

Lemma artifact_name_inv (n : string) :
  artifact_name n = true →
  truthy n = true ∧ char_in "/" n = false ∧ hidden n = false ∧
  ∃ ext, ext ∈ artifact_exts ∧ endswith n ext = true.
Proof.
  unfold artifact_name. rewrite !andb_true_iff, !negb_true_iff.
  intros [[[H1 H2] H3] H4]. apply existsb_exists in H4 as (ext & He & H4).
  repeat split; try done. exists ext. split; [by apply list_elem_of_In | done].
Qed.

Lemma glob_star_target (d ext g : string) (m : gmap string node) :
  plain d = true → ext ∈ artifact_exts →
  g ∈ glob (d +:+ "/*" +:+ ext) m → target d g.
Proof.
  intros Hd Hext Hg. destruct (artifact_ext_inv ext Hext) as [Hm Hs].
  apply (elem_of_glob_star d ext g m Hd Hm Hs) in Hg
    as (_ & n & -> & _ & H1 & H2 & H3 & H4).
  right. right. right. exists n. split; [| done].
  by apply (artifact_name_intro n ext).
Qed.

Lemma sweep_frame (d ext q : string) (m : gmap string node) :
  plain d = true → ext ∈ artifact_exts → ¬ covered d q →
  sweep d ext m !! q = m !! q.
Proof.
  intros Hd Hext Hq. apply foldl_rm_effect_frame. intros t Ht.
  apply (not_covered_target d q t Hq). by eapply glob_star_target.
Qed.

Lemma clean_deletions_frame (d q : string) (m : gmap string node) :
  plain d = true → ¬ covered d q → clean_deletions d m !! q = m !! q.
Proof.
  intros Hd Hq. unfold clean_deletions.
  rewrite <- (foldl_rm_effect_frame
                [d +:+ "/results"; d +:+ "/report"; "discs"] m q).
  2:{ intros t Ht. apply (not_covered_target d q t Hq).
      rewrite !elem_of_cons in Ht.
      destruct Ht as [->|[->|[->|Ht]]]; [by left | by right; left
        | by right; right; left | by apply elem_of_nil in Ht]. }
  generalize (foldl (λ m f, rm_effect f m) m [d +:+ "/results"; d +:+ "/report"; "discs"]).
  assert (∀ e, e ∈ artifact_exts → e ∈ artifact_exts) as Hl by done.
  revert Hl. generalize artifact_exts at 1 3. intros l.
  induction l as [|e l IH]; intros Hl m'; [done |]. cbn [foldl].
  rewrite IH by (intros e' He'; apply Hl; by right).
  apply sweep_frame; [done | | done]. apply Hl. by left.
Qed.

Lemma sweep_gone (d ext n : string) (m : gmap string node) :
  plain d = true → ext ∈ artifact_exts → isdir d m = true →
  truthy n = true → char_in "/" n = false → hidden n = false →
  endswith n ext = true →
  sweep d ext m !! (d +:+ "/" +:+ n) = None.
Proof.
  intros Hd Hext Hdir H1 H2 H3 H4.
  destruct (artifact_ext_inv ext Hext) as [Hm Hs].
  destruct (m !! (d +:+ "/" +:+ n)) as [x|] eqn:E.
  - apply foldl_rm_effect_gone.
    apply (elem_of_glob_star d ext _ m Hd Hm Hs). split; [done |].
    exists n. split; [done |]. split; [by exists x | done].
  - eapply lookup_subseteq_None; [apply sweep_subseteq | done].
Qed.

Lemma foldl_sweep_subseteq (d : string) (l : list string) (m : gmap string node) :
  foldl (λ m ext, sweep d ext m) m l ⊆ m.
Proof.
  revert m. induction l as [|e l IH]; intros m; [done |]. cbn [foldl].
  etrans; [apply IH | apply sweep_subseteq].
Qed.

Lemma foldl_sweep_gone (d ext n : string) (l : list string) (m : gmap string node) :
  plain d = true → (∀ e, e ∈ l → e ∈ artifact_exts) → ext ∈ l →
  isdir d (foldl (λ m ext, sweep d ext m) m l) = true →
  truthy n = true → char_in "/" n = false → hidden n = false →
  endswith n ext = true →
  foldl (λ m ext, sweep d ext m) m l !! (d +:+ "/" +:+ n) = None.
Proof.
  intros Hd Hl Hext Hdir H1 H2 H3 H4. revert m Hl Hext Hdir.
  induction l as [|e l IH]; intros m Hl Hext Hdir.
  - by apply elem_of_nil in Hext.
  - cbn [foldl] in *. apply elem_of_cons in Hext as [<-|Hext].
    + eapply lookup_subseteq_None; [apply foldl_sweep_subseteq |].
      apply sweep_gone; try done; [apply Hl; by left |].
      eapply isdir_subseteq; [| exact Hdir].
      etrans; [apply foldl_sweep_subseteq | apply sweep_subseteq].
    + apply IH; [| done | done]. intros e' He'. apply Hl. by right.
Qed.

Lemma clean_deletions_gone (d n : string) (m : gmap string node) :
  plain d = true → isdir d (clean_deletions d m) = true →
  artifact_name n = true →
  clean_deletions d m !! (d +:+ "/" +:+ n) = None.
Proof.
  intros Hd Hdir (H1 & H2 & H3 & ext & Hext & H4)%artifact_name_inv.
  unfold clean_deletions in *. by apply (foldl_sweep_gone d ext n).
Qed.

(** ** [mkdir] *)

Lemma ancestors_from_spec (acc p a : string) :
  a ∈ ancestors_from acc p → ∃ r, acc +:+ p = a +:+ "/" +:+ r.
Proof.
  revert acc. induction p as [|c p IH]; intros acc Ha.
  - by apply elem_of_nil in Ha.
  - cbn [ancestors_from] in Ha. apply elem_of_app in Ha as [Ha|Ha].
    + destruct (Ascii.eqb_spec c "/") as [->|]; [| by apply elem_of_nil in Ha].
      destruct (truthy acc); [| by apply elem_of_nil in Ha].
      apply list_elem_of_singleton in Ha as ->. by exists p.
    + apply IH in Ha as [r Hr]. exists r. rewrite <- Hr.
      by rewrite append_assoc.
Qed.

Lemma ancestors_beneath (p a : string) : a ∈ ancestors p → beneath a p = true.
Proof.
  intros [r Hr]%ancestors_from_spec. apply beneath_spec. by exists r.
Qed.

Lemma lookup_foldr_insert_dir (chain : list string) (m : gmap string node) (q : string) :
  foldr (λ d, <[d := Dir]>) m chain !! q =
    if decide (q ∈ chain) then Some Dir else m !! q.
Proof.
  induction chain as [|d chain IH]; cbn [foldr].
  - rewrite decide_False; [done |]. intros H. by apply elem_of_nil in H.
  - destruct (decide (d = q)) as [->|Hne].
    + rewrite lookup_insert_eq. rewrite decide_True; [done | by left].
    + rewrite lookup_insert_ne by done. rewrite IH.
      destruct (decide (q ∈ chain)) as [Hq|Hq].
      * rewrite decide_True; [done | by right].
      * rewrite decide_False; [done |].
        intros [?|?]%elem_of_cons; [congruence | done].
Qed.

Lemma mkdir_ok_chain (p q : string) (m : gmap string node) :
  isdir p m = false → mkdir_ok p m = true → q ∈ ancestors p ++ [p] →
  isfile q m = false.
Proof.
  unfold mkdir_ok. intros -> H Hq. simpl in H.
  apply andb_true_iff in H as [_ H].
  apply list_elem_of_In in Hq. apply (proj1 (forallb_forall _ _) H) in Hq.
  by apply negb_true_iff in Hq.
Qed.

Lemma isfile_false (q : string) (m : gmap string node) (x : node) :
  m !! q = Some x → isfile q m = false → x = Dir.
Proof. unfold isfile. intros ->. by destruct x. Qed.

(** [mkdir] keeps every entry that is there. *)
Lemma mkdir_fs_lookup_Some (p q : string) (m : gmap string node) (x : node) :
  m !! q = Some x → mkdir_fs p m !! q = Some x.
Proof.
  intros Hq. unfold mkdir_fs. destruct (isdir p m) eqn:Ed; [done |].
  destruct (mkdir_ok p m) eqn:Eo; [| done].
  rewrite lookup_foldr_insert_dir. destruct (decide _) as [Hin|]; [| done].
  f_equal. symmetry. eapply isfile_false; [exact Hq |].
  by eapply mkdir_ok_chain.
Qed.

(** [mkdir] makes no regular file. *)
Lemma mkdir_fs_file (p q c : string) (m : gmap string node) :
  mkdir_fs p m !! q = Some (File c) → m !! q = Some (File c).
Proof.
  unfold mkdir_fs. destruct (isdir p m); [done |].
  destruct (mkdir_ok p m); [| done].
  rewrite lookup_foldr_insert_dir. by destruct (decide _).
Qed.

Lemma mkdir_fs_new (p q : string) (m : gmap string node) :
  m !! q = None → is_Some (mkdir_fs p m !! q) → q ∈ ancestors p ++ [p].
Proof.
  intros Hq. unfold mkdir_fs. destruct (isdir p m); [by rewrite Hq; intros [] |].
  destruct (mkdir_ok p m); [| by rewrite Hq; intros []].
  rewrite lookup_foldr_insert_dir. destruct (decide _); [done |].
  by rewrite Hq; intros [].
Qed.

Lemma mkdir_fs_isdir (p : string) (m : gmap string node) :
  mkdir_ok p m = true → isdir p (mkdir_fs p m) = true.
Proof.
  intros Ho. unfold mkdir_fs. destruct (isdir p m) eqn:Ed; [done |].
  rewrite Ho. unfold isdir. apply bool_decide_eq_true.
  rewrite lookup_foldr_insert_dir. rewrite decide_True; [done |].
  apply elem_of_app. right. by left.
Qed.

(** ** The clean-up: frame *)

Lemma clean_fs_keeps (d q : string) (m : gmap string node) (x : node) :
  plain_fs m → m !! q = Some x → ¬ covered d q → clean_fs d m !! q = Some x.
Proof.
  intros Hp Hq Hc. unfold clean_fs. apply mkdir_fs_lookup_Some.
  destruct (lexists d m) eqn:Hex; [| done].
  rewrite clean_deletions_frame; [done | | done].
  apply (plain_fs_lookup m d Hp). unfold lexists in Hex.
  by apply bool_decide_eq_true in Hex.
Qed.


(** ** Well-formed file systems *)

Lemma canonical_plain (p : string) : canonical p = true → plain p = true.
Proof. unfold canonical. by intros [H _]%andb_true_iff. Qed.

Lemma well_formed_plain (m : gmap string node) : well_formed m → plain_fs m.
Proof.
  intros Hwf k x Hk. specialize (Hwf k x Hk). cbn in Hwf.
  apply andb_true_iff in Hwf as [Hc _]. by apply canonical_plain.
Qed.

Lemma well_formed_canonical (m : gmap string node) (k : string) :
  well_formed m → is_Some (m !! k) → canonical k = true.
Proof.
  intros Hwf [x Hk]. specialize (Hwf k x Hk). cbn in Hwf.
  by apply andb_true_iff in Hwf as [Hc _].
Qed.

Example canonical_samples :
  canonical "out" = true ∧ canonical "runs/today.1" = true
  ∧ canonical ".hidden/out" = true
  ∧ canonical "out/" = false ∧ canonical "./out" = false
  ∧ canonical "." = false ∧ canonical "" = false
  ∧ canonical "runs//today" = false ∧ canonical "runs/../out" = false
  ∧ canonical "/tmp/out" = false ∧ canonical "o?t" = false.
Proof. repeat split. Qed.


(** ** The clean-up: twice in a row *)

Lemma clean_fs_step (d : string) (m : gmap string node) :
  clean_pre d m →
  mkdir_ok d (if lexists d m then clean_deletions d m else m) = true
  ∧ clean_pre d (clean_fs d m) ∧ clean_post d (clean_fs d m).
Proof.
  intros (Hp & Hd & Ha).
  assert (plain d = true) as Hpd by (apply (plain_fs_lookup m d Hp); by exists Dir).
  pose proof (plain_inv d Hpd) as (Ht & _ & _ & _).
  assert (lexists d m = true) as Hex.
  { unfold lexists. apply bool_decide_eq_true. by exists Dir. }
  unfold clean_fs. rewrite Hex.
  pose proof (clean_deletions_subseteq d m) as Hsub.
  pose proof (pruned_clean_deletions d m) as [_ Hup].
  set (D := clean_deletions d m) in *.
  assert (∀ a, m !! a = Some Dir → isfile a D = false) as Hnf.
  { intros a Hma. unfold isfile. destruct (D !! a) as [[c|]|] eqn:E; try done.
    apply (lookup_weaken _ _ _ _ E) in Hsub. congruence. }
  assert (mkdir_ok d D = true) as Hok.
  { unfold mkdir_ok. destruct (isdir d D); [done |]. rewrite Ht. simpl.
    apply forallb_forall. intros a Hin. apply list_elem_of_In in Hin.
    apply negb_true_iff, Hnf. apply elem_of_app in Hin as [Hin|Hin].
    - by apply (proj1 (Forall_forall _ _) Ha).
    - by apply list_elem_of_singleton in Hin as ->. }
  split; [done |].
  assert (isdir d (mkdir_fs d D) = true) as Hdir by by apply mkdir_fs_isdir.
  split; [split; [| split] | split; [done |]].
  - (* every path is plain *)
    intros k x Hk. destruct (D !! k) as [y|] eqn:E.
    + apply (plain_fs_lookup m k Hp). exists y. by eapply lookup_weaken.
    + assert (k ∈ ancestors d ++ [d]) as Hin by (by eapply mkdir_fs_new).
      apply elem_of_app in Hin as [Hin|Hin].
      * apply (plain_fs_lookup m k Hp). exists Dir.
        by apply (proj1 (Forall_forall _ _) Ha).
      * by apply list_elem_of_singleton in Hin as ->.
  - unfold isdir in Hdir. by apply bool_decide_eq_true in Hdir.
  - (* the directories above are directories *)
    apply Forall_forall. intros a Hin.
    unfold mkdir_fs. destruct (isdir d D) eqn:Ed.
    + unfold isdir in Ed. apply bool_decide_eq_true in Ed.
      rewrite (Hup a d (ancestors_beneath d a Hin)) by by exists Dir.
      by apply (proj1 (Forall_forall _ _) Ha).
    + rewrite Hok, lookup_foldr_insert_dir. rewrite decide_True; [done |].
      apply elem_of_app. by left.
  - (* no artifact is left *)
    intros n Hn. unfold mkdir_fs. destruct (isdir d D) eqn:Ed.
    + by apply clean_deletions_gone.
    + rewrite Hok, lookup_foldr_insert_dir.
      assert (D !! d = None) as Hdn.
      { destruct (D !! d) as [x|] eqn:E; [| done].
        apply (lookup_weaken _ _ _ _ E) in Hsub.
        unfold isdir in Ed. apply bool_decide_eq_false in Ed. congruence. }
      rewrite decide_False.
      * destruct (D !! (d +:+ "/" +:+ n)) as [x|] eqn:E; [| done].
        rewrite (Hup d _ (beneath_child d n)) in Hdn by by exists x.
        congruence.
      * intros [Hin|Hin]%elem_of_app.
        -- apply ancestors_beneath, beneath_length in Hin.
           rewrite !append_length in Hin. lia.
        -- apply list_elem_of_singleton in Hin.
           apply (f_equal String.length) in Hin.
           rewrite !append_length in Hin. simpl in Hin. lia.
Qed.


(** ** The clean-up: the second run changes nothing *)

Lemma child_neq (d n : string) : d ≠ d +:+ "/" +:+ n.
Proof.
  intros H. apply (f_equal String.length) in H.
  rewrite !append_length in H. simpl in H. lia.
Qed.

Lemma beneath_child_self (d n : string) : beneath (d +:+ "/" +:+ n) d = false.
Proof.
  destruct (beneath (d +:+ "/" +:+ n) d) eqn:E; [| done].
  apply beneath_length in E. rewrite !append_length in E. simpl in E. lia.
Qed.

Lemma rm_effect_absent (f : string) (m : gmap string node) :
  m !! f = None → rm_effect f m = m.
Proof.
  intros H. unfold rm_effect, lexists. rewrite bool_decide_eq_false_2; [done |].
  rewrite H. by intros [].
Qed.

Lemma rm_effect_present (f : string) (m : gmap string node) :
  is_Some (m !! f) → rm_effect f m = rmtree f m.
Proof.
  intros H. unfold rm_effect, lexists. by rewrite bool_decide_eq_true_2.
Qed.

Lemma lookup_rmtree (f k : string) (m : gmap string node) :
  rmtree f m !! k = if decide (k = f ∨ beneath f k = true) then None else m !! k.
Proof.
  unfold rmtree. destruct (decide _) as [H|H].
  - apply map_lookup_filter_None. right. intros x _ [H1 H2]. simpl in *.
    destruct H as [H|H]; [done | congruence].
  - destruct (m !! k) as [x|] eqn:E.
    + apply map_lookup_filter_Some. split; [done |]. simpl. split.
      * intros ->. apply H. by left.
      * destruct (beneath f k); [| done]. destruct H. by right.
    + apply map_lookup_filter_None. by left.
Qed.

Lemma ancestors_from_intro (acc r1 r2 : string) :
  truthy (acc +:+ r1) = true →
  acc +:+ r1 ∈ ancestors_from acc (r1 +:+ "/" +:+ r2).
Proof.
  revert acc. induction r1 as [|c r1 IH]; intros acc Ht.
  - rewrite append_nil_r in *. change ("" +:+ "/" +:+ r2) with (String "/" r2).
    cbn [ancestors_from]. rewrite Ascii.eqb_refl, Ht. by left.
  - change (String c r1 +:+ "/" +:+ r2) with (String c (r1 +:+ "/" +:+ r2)).
    cbn [ancestors_from]. apply elem_of_app. right.
    assert (acc +:+ String c r1 = (acc +:+ String c "") +:+ r1) as E
      by by rewrite append_assoc.
    rewrite E. apply IH. by rewrite <- E.
Qed.

Lemma ancestors_of_beneath (a p : string) :
  truthy a = true → beneath a p = true → a ∈ ancestors p.
Proof.
  intros Ha [r ->]%beneath_spec. unfold ancestors.
  by apply (ancestors_from_intro "" a r).
Qed.

Lemma glob_star_nil (d ext : string) (m : gmap string node) :
  plain d = true → ext ∈ artifact_exts →
  (∀ n, artifact_name n = true → m !! (d +:+ "/" +:+ n) = None) →
  glob (d +:+ "/*" +:+ ext) m = [].
Proof.
  intros Hd Hext Hnone. destruct (artifact_ext_inv ext Hext) as [Hm Hs].
  destruct (glob (d +:+ "/*" +:+ ext) m) as [|g l] eqn:E; [done |].
  assert (g ∈ glob (d +:+ "/*" +:+ ext) m) as Hg by (rewrite E; by left).
  apply (elem_of_glob_star d ext g m Hd Hm Hs) in Hg
    as (_ & n & -> & [x Hx] & H1 & H2 & H3 & H4).
  rewrite (Hnone n) in Hx; [done |]. by apply (artifact_name_intro n ext).
Qed.

Lemma foldl_sweep_nothing (d : string) (m : gmap string node) :
  plain d = true →
  (∀ n, artifact_name n = true → m !! (d +:+ "/" +:+ n) = None) →
  foldl (λ m ext, sweep d ext m) m artifact_exts = m.
Proof.
  intros Hd Hnone.
  assert (∀ e, e ∈ artifact_exts → e ∈ artifact_exts) as Hl by done.
  revert Hl. generalize artifact_exts at 1 3. intros l.
  induction l as [|e l IH]; intros Hl; [done |]. cbn [foldl].
  assert (sweep d e m = m) as ->.
  { unfold sweep. rewrite (glob_star_nil d e m Hd); [done | | done].
    apply Hl. by left. }
  apply IH. intros e' He'. apply Hl. by right.
Qed.

Lemma foldl_sweep_frame_dir (d : string) (l : list string) (m : gmap string node) :
  plain d = true → (∀ e, e ∈ l → e ∈ artifact_exts) →
  foldl (λ m ext, sweep d ext m) m l !! d = m !! d.
Proof.
  intros Hd. revert m. induction l as [|e l IH]; intros m Hl; [done |].
  cbn [foldl]. rewrite IH by (intros e' He'; apply Hl; by right).
  apply foldl_rm_effect_frame. intros t Ht.
  destruct (artifact_ext_inv e (Hl e ltac:(by left))) as [Hm Hs].
  apply (elem_of_glob_star d e t m Hd Hm Hs) in Ht as (_ & n & -> & _).
  split; [apply child_neq | apply beneath_child_self].
Qed.

Lemma no_slash_child (d n : string) (k : string) :
  char_in "/" k = false →
  k ≠ d +:+ "/" +:+ n ∧ beneath (d +:+ "/" +:+ n) k = false.
Proof.
  intros Hk. split.
  - intros ->. rewrite !char_in_append in Hk. by rewrite orb_true_r in Hk.
  - destruct (beneath (d +:+ "/" +:+ n) k) eqn:E; [| done].
    apply beneath_spec in E as [r ->]. rewrite !char_in_append in Hk.
    by rewrite orb_true_r in Hk.
Qed.

(** The three named targets are gone after the deletions. *)
Lemma clean_deletions_named_gone (d t : string) (m : gmap string node) :
  t ∈ [d +:+ "/results"; d +:+ "/report"; "discs"] →
  clean_deletions d m !! t = None.
Proof.
  intros Ht. unfold clean_deletions.
  eapply lookup_subseteq_None; [apply foldl_sweep_subseteq |].
  by apply foldl_rm_effect_gone.
Qed.

Lemma clean_deletions_nothing (d : string) (m : gmap string node) :
  plain d = true →
  m !! (d +:+ "/results") = None → m !! (d +:+ "/report") = None →
  m !! "discs" = None →
  (∀ n, artifact_name n = true → m !! (d +:+ "/" +:+ n) = None) →
  clean_deletions d m = m.
Proof.
  intros Hd H1 H2 H3 Hn. unfold clean_deletions. cbn [foldl].
  rewrite (rm_effect_absent _ m H1), (rm_effect_absent _ m H2),
    (rm_effect_absent _ m H3).
  by apply foldl_sweep_nothing.
Qed.

Lemma clean_fs_idempotent (d : string) (m : gmap string node) :
  clean_pre d m → clean_fs d (clean_fs d m) = clean_fs d m.
Proof.
  intros Hpre. destruct (clean_fs_step d m Hpre) as (Hok & Hpre1 & Hdir1 & Hpost1).
  destruct Hpre as (Hp & Hd & Ha).
  assert (plain d = true) as Hpd by (apply (plain_fs_lookup m d Hp); by exists Dir).
  pose proof (plain_inv d Hpd) as (Ht & _ & _ & _).
  assert (lexists d m = true) as Hex.
  { unfold lexists. apply bool_decide_eq_true. by exists Dir. }
  assert (lexists d (clean_fs d m) = true) as Hex1.
  { unfold lexists. apply bool_decide_eq_true. destruct Hpre1 as (_ & -> & _).
    by exists Dir. }
  unfold clean_fs at 1. rewrite Hex1.
  unfold clean_fs in *. rewrite Hex in *.
  pose proof (clean_deletions_subseteq d m) as Hsub.
  pose proof (pruned_clean_deletions d m) as [_ Hup].
  set (D := clean_deletions d m) in *.
  set (chain := ancestors d ++ [d]) in *.
  unfold mkdir_fs at 2 3. unfold mkdir_fs in Hdir1, Hpost1.
  destruct (isdir d D) eqn:Ed.
  - (* the directory survived the first run *)
    rewrite (clean_deletions_nothing d D Hpd); try done;
      try (apply clean_deletions_named_gone; set_solver).
    unfold mkdir_fs. by rewrite Ed.
  - (* it was removed with [discs] and made again *)
    rewrite Hok in *. fold chain in Hpost1, Hdir1 |- *.
    set (m1 := foldr (λ d0, <[d0 := Dir]>) D chain) in *.
    assert (D !! d = None) as Hdn.
    { destruct (D !! d) as [x|] eqn:E; [| done].
      apply (lookup_weaken _ _ _ _ E) in Hsub.
      unfold isdir in Ed. apply bool_decide_eq_false in Ed. congruence. }
    assert (∀ k, beneath d k = true → D !! k = None) as Hbelow.
    { intros k Hk. destruct (D !! k) as [x|] eqn:E; [| done].
      rewrite (Hup d k Hk) in Hdn by by exists x. congruence. }
    (* the state in which [discs] was removed *)
    set (mb := rm_effect (d +:+ "/report") (rm_effect (d +:+ "/results") m)).
    assert (D = foldl (λ m ext, sweep d ext m) (rm_effect "discs" mb) artifact_exts)
      as HD by done.
    assert (∀ k, char_in "/" k = false → mb !! k = m !! k) as Hmb.
    { intros k Hk. unfold mb.
      destruct (no_slash_child d "report" k Hk),
        (no_slash_child d "results" k Hk).
      by rewrite !lookup_rm_effect_ne. }
    assert (mb !! d = Some Dir) as Hmbd.
    { unfold mb. rewrite !lookup_rm_effect_ne;
        [done | apply child_neq | apply beneath_child_self
        | apply child_neq | apply beneath_child_self]. }
    assert (rm_effect "discs" mb !! d = None) as Hgone.
    { rewrite <- Hdn, HD. symmetry. by apply foldl_sweep_frame_dir. }
    assert ("discs" ∈ chain) as Hin.
    { destruct (lookup_rm_effect_gone "discs" d mb) as [->|Hb];
        [by exists Dir | done | |].
      + apply elem_of_app. right. by left.
      + apply elem_of_app. left. by apply ancestors_of_beneath. }
    assert (m !! "discs" = Some Dir) as Hdiscs.
    { apply elem_of_app in Hin as [Hin|Hin].
      + by apply (proj1 (Forall_forall _ _) Ha).
      + by apply list_elem_of_singleton in Hin as <-. }
    assert (d = "discs" ∨ beneath "discs" d = true) as Hdd.
    { apply (lookup_rm_effect_gone "discs" d mb); [by exists Dir | done]. }
    assert (∀ k, k = "discs" ∨ beneath "discs" k = true → D !! k = None) as Hnone.
    { intros k Hk. rewrite HD.
      eapply lookup_subseteq_None; [apply foldl_sweep_subseteq |].
      rewrite rm_effect_present by (rewrite Hmb by done; by exists Dir).
      rewrite lookup_rmtree. by rewrite decide_True. }
    assert (∀ k, m1 !! k = if decide (k ∈ chain) then Some Dir else D !! k) as Hm1.
    { intros k. apply lookup_foldr_insert_dir. }
    assert (∀ n, m1 !! (d +:+ "/" +:+ n) = None) as Hchild.
    { intros n. rewrite Hm1. rewrite decide_False.
      + apply Hbelow, beneath_child.
      + intros [Hc|Hc]%elem_of_app.
        * apply ancestors_beneath, beneath_length in Hc.
          rewrite !append_length in Hc. lia.
        * apply list_elem_of_singleton in Hc. symmetry in Hc.
          by apply child_neq in Hc. }
    assert (clean_deletions d m1 = rmtree "discs" m1) as ->.
    { unfold clean_deletions. cbn [foldl].
      rewrite (rm_effect_absent (d +:+ "/results") m1 (Hchild "results")).
      rewrite (rm_effect_absent (d +:+ "/report") m1 (Hchild "report")).
      rewrite rm_effect_present by (rewrite Hm1, decide_True by done; by exists Dir).
      apply foldl_sweep_nothing; [done |]. intros n _.
      rewrite lookup_rmtree. destruct (decide _); [done | apply Hchild]. }
    assert (isdir d (rmtree "discs" m1) = false) as Ed'.
    { unfold isdir. apply bool_decide_eq_false. rewrite lookup_rmtree.
      by rewrite decide_True by (destruct Hdd; [left | right]; done). }
    unfold mkdir_fs. rewrite Ed'.
    assert (mkdir_ok d (rmtree "discs" m1) = true) as ->.
    { unfold mkdir_ok. rewrite Ed', Ht. simpl. apply forallb_forall.
      intros a Hin'%list_elem_of_In. apply negb_true_iff. unfold isfile.
      rewrite lookup_rmtree. destruct (decide _); [done |].
      fold chain in Hin'. rewrite Hm1. by destruct (decide (a ∈ chain)). }
    fold chain. apply map_eq. intros k.
    rewrite lookup_foldr_insert_dir, Hm1.
    destruct (decide (k ∈ chain)) as [|Hk]; [done |].
    rewrite lookup_rmtree, Hm1.
    destruct (decide (k = "discs" ∨ beneath "discs" k = true)) as [Hk'|_].
    + symmetry. by apply Hnone.
    + by destruct (decide (k ∈ chain)).
Qed.

(** C4 (as the code has it). Starting from a file system with plain paths
    in which the output directory is a directory below directories, the
    clean-up run twice in a row returns normally both times; after each run
    the output directory is a directory and has no entry whose name does
    not start with a dot and ends in [.diff], [.expected], [.out] or
    [.result]; and the second run leaves the world exactly as the first
    run left it. *)
Theorem clean_result_dir_twice (d : string) (w : world) :
  clean_pre d (fs w) →
  let r1 := clean_result_dir d w in
  let r2 := clean_result_dir d r1.1 in
  r1.2 = Returned tt ∧ clean_post d (fs r1.1)
  ∧ r2.2 = Returned tt ∧ clean_post d (fs r2.1)
  ∧ r2.1 = r1.1.
Proof.
  intros Hpre r1 r2.
  destruct (clean_fs_step d (fs w) Hpre) as (Hok1 & Hpre1 & Hpost1).
  assert (r1 = (set_fs (clean_fs d) w, Returned tt)) as E1.
  { unfold r1. rewrite (clean_result_dir_run d w (proj1 Hpre)). by rewrite Hok1. }
  destruct (clean_fs_step d (clean_fs d (fs w)) Hpre1) as (Hok2 & _ & Hpost2).
  assert (r2 = (set_fs (clean_fs d) (set_fs (clean_fs d) w), Returned tt)) as E2.
  { unfold r2. rewrite E1. cbn [fst].
    rewrite (clean_result_dir_run d (set_fs (clean_fs d) w) (proj1 Hpre1)).
    cbn [fs set_fs]. by rewrite Hok2. }
  rewrite E1, E2. cbn [fst snd].
  split; [done |]. split; [done |]. split; [done |]. split; [done |].
  unfold set_fs. cbn [fs cwd environ stdout stderr].
  by rewrite (clean_fs_idempotent d (fs w) Hpre).
Qed.

(** ** The model on sample inputs *)

Example path_split_samples :
  path_split "out/*.diff" = ("out", "*.diff")
  ∧ path_split "results" = ("", "results")
  ∧ path_split "/tmp" = ("/", "tmp")
  ∧ path_split "a//b/" = ("a//b", "")
  ∧ path_split "//" = ("//", "").
Proof. repeat split. Qed.

Example path_join_samples :
  path_join "out" "a.diff" = "out/a.diff"
  ∧ path_join "out/" "a.diff" = "out/a.diff"
  ∧ path_join "" "a.diff" = "a.diff"
  ∧ path_join "out" "/etc" = "/etc".
Proof. repeat split. Qed.

Example fnmatch_samples :
  fnmatch "t1.diff" "*.diff" = true
  ∧ fnmatch "t1.diff.orig" "*.diff" = false
  ∧ fnmatch "t1.out" "t?.out" = true
  ∧ fnmatch "t12.out" "t?.out" = false
  ∧ fnmatch "results" "results" = true.
Proof. repeat split. Qed.

Example str_split_samples :
  str_split "," "gnat,fast" = ["gnat"; "fast"]
  ∧ str_split "," "a,,b" = ["a"; ""; "b"]
  ∧ str_split "," "solo" = ["solo"]
  ∧ lower "X86_64-Linux" = "x86_64-linux".
Proof. repeat split. Qed.

(** The example of the specification: of [smoke_a], [smoke_b] and [other]
    the filter [smoke] keeps the first two; the regular file [README] is
    matched by the pattern and dropped from the list of tests. *)
Example filter_list_smoke :
  filter_list (λ p, glob p sample_fs) "tests/*" "smoke"
    = ["tests/smoke_a"; "tests/smoke_b"]
  ∧ glob "tests/*" sample_fs
    = ["tests/other"; "tests/smoke_a"; "tests/smoke_b"; "tests/README"]
  ∧ test_list "" sample_fs = ["tests/other"; "tests/smoke_a"; "tests/smoke_b"].
Proof. repeat split; vm_compute; reflexivity. Qed.

(** A whole run of the script on the sample world. *)
Example sample_run :
  let r := python (script sample_harness) sample_world in
  r.2 = 0%Z
  ∧ stdout r.1 =
      ["Running only test 'smoke'";
       "/usr/bin/python run-test -d ALL,ALL,x86_64-linux,x86_64-pc-linux-gnu,gnat,fast -o out -t /tmp/tp tests/smoke_a -v --host=build-host --disable-cleanup";
       "/usr/bin/python run-test -d ALL,ALL,x86_64-linux,x86_64-pc-linux-gnu,gnat,fast -o out -t /tmp/tp tests/smoke_b -v --host=build-host --disable-cleanup"]
  ∧ fs r.1 !! "out/discs" =
      Some (File "ALL ALL x86_64-linux x86_64-pc-linux-gnu gnat fast")
  ∧ fs r.1 !! "out/report" = Some (File "2 tests run")
  ∧ fs r.1 !! "out/notes.txt" = Some (File "keep me")
  ∧ fs r.1 !! "out/smoke_a.diff" = None
  ∧ environ r.1 !! "PATH" =
      Some "/usr/bin:/work/regtests/../.build/x86_64-linux/debug/static/bin:/work/regtests/../.build/x86_64-linux/debug/static/rbin".
Proof. repeat split; vm_compute; reflexivity. Qed.

(** ** The properties on sample runs *)

(** Two positional arguments: the first is the filter, the second is not
    looked at. *)
Lemma parse_options_first_positional_witness :
  parse_args sample_harness sample_world = (sample_world, Returned sample_parsed)
  ∧ __parse_options sample_harness sample_world =
      (add_stdout "Running only test 'smoke'" sample_world,
       Returned (Options "smoke" ["gnat"; "fast"] "out" "/tmp/tp" true
                   (Some "build-host") None false false None 2)).
Proof.
  split; [reflexivity |].
  apply (parse_options_first_positional sample_harness sample_world
           sample_world sample_parsed).
  reflexivity.
Defined.

(** A job loop that fails an assertion: the message is printed and the
    status is 0. *)
Lemma assertion_caught_exit_zero_witness :
  main failing_harness sample_world =
    ((main failing_harness sample_world).1, Raised (AssertionError "no job slot"))
  ∧ __main__ failing_harness sample_world =
      (add_stdout "ERROR: no job slot" (main failing_harness sample_world).1,
       Returned tt)
  ∧ python (__main__ failing_harness) sample_world =
      (add_stdout "ERROR: no job slot" (main failing_harness sample_world).1, 0%Z)
  ∧ stderr (python (__main__ failing_harness) sample_world).1
    = stderr (main failing_harness sample_world).1.
Proof.
  split; [vm_compute; reflexivity |].
  apply (assertion_caught_exit_zero failing_harness sample_world).
  vm_compute. reflexivity.
Defined.

(** C6 (the claim fails). With a job loop that fails an assertion, [main]
    raises [AssertionError] and the process still ends with status 0. *)
Lemma assertion_exit_status_is_zero :
  (main failing_harness sample_world).2 = Raised (AssertionError "no job slot")
  ∧ (python (__main__ failing_harness) sample_world).2 = 0%Z.
Proof. split; vm_compute; reflexivity. Qed.




(** Two clean-ups in a row on the sample world. *)
Lemma clean_result_dir_twice_witness :
  clean_pre "out" (fs sample_world)
  ∧ let r1 := clean_result_dir "out" sample_world in
    let r2 := clean_result_dir "out" r1.1 in
    r1.2 = Returned tt ∧ clean_post "out" (fs r1.1)
    ∧ r2.2 = Returned tt ∧ clean_post "out" (fs r2.1)
    ∧ r2.1 = r1.1.
Proof.
  assert (clean_pre "out" (fs sample_world)) as H.
  { split; [| split].
    - unfold plain_fs. eapply bool_decide_unpack. vm_compute. exact I.
    - vm_compute. reflexivity.
    - vm_compute. constructor. }
  split; [exact H |]. exact (clean_result_dir_twice "out" sample_world H).
Defined.

(** C4 (the claim fails). A file of the output directory whose name ends
    in [.diff] and starts with a dot is still there after two clean-ups in
    a row. *)
Lemma clean_keeps_dotfile_artifact :
  let r1 := clean_result_dir "out" dotfile_world in
  let r2 := clean_result_dir "out" r1.1 in
  fs dotfile_world !! "out" = Some Dir
  ∧ endswith ".stale.diff" ".diff" = true
  ∧ r1.2 = Returned tt ∧ r2.2 = Returned tt
  ∧ fs r1.1 !! "out/.stale.diff" = Some (File "old")
  ∧ fs r2.1 !! "out/.stale.diff" = Some (File "old").
Proof. repeat split; vm_compute; reflexivity. Qed.

(** * Further properties *)

(** ** Test discovery on the file system *)

Lemma endswith_nil (n : string) : endswith n "" = true.
Proof. apply endswith_spec. exists n. by rewrite append_nil_r. Qed.

Lemma contains_trans (x g f : string) : contains x g → contains g f → contains x f.
Proof.
  intros (a & b & ->) (a' & b' & ->). exists (a +:+ a'), (b' +:+ b).
  by rewrite !append_assoc.
Qed.

Lemma filter_all_in {A : Type} (f : A → bool) (l : list A) :
  (∀ x, x ∈ l → f x = true) → List.filter f l = l.
Proof.
  induction l as [|x l IH]; intros Hf; simpl; [done |].
  rewrite (Hf x) by by left. rewrite IH; [done |]. intros y Hy. apply Hf. by right.
Qed.

Lemma filter_sublist_impl {A : Type} (f g : A → bool) (l : list A) :
  (∀ x, g x = true → f x = true) → List.filter g l `sublist_of` List.filter f l.
Proof.
  intros Hgf. induction l as [|x l IH]; simpl; [constructor |].
  destruct (g x) eqn:Eg.
  - rewrite (Hgf x Eg). by constructor.
  - destruct (f x); [by constructor | done].
Qed.

(** What [glob('tests/*')] finds: the entries of the directory [tests]
    whose name does not start with a dot. *)
Lemma elem_of_glob_tests (t : string) (m : gmap string node) :
  t ∈ glob "tests/*" m ↔
    isdir "tests" m = true ∧
    ∃ n, t = "tests/" +:+ n ∧ is_Some (m !! t) ∧ truthy n = true ∧
         char_in "/" n = false ∧ hidden n = false.
Proof.
  change "tests/*" with ("tests" +:+ "/*" +:+ "").
  rewrite (elem_of_glob_star "tests" "" t m) by done.
  split.
  - intros [Hd (n & Ht & Hx & H1 & H2 & H3 & _)]. split; [done |]. by exists n.
  - intros [Hd (n & Ht & Hx & H1 & H2 & H3)]. split; [done |]. exists n.
    repeat split; try done. apply endswith_nil.
Qed.

(** X1. A path is among the tests to run exactly when [tests] is a
    directory and the path is an entry of it that is itself a directory,
    whose name does not start with a dot, and that contains the filter; the
    filter is looked for in the whole path, [tests/] included. *)
Theorem test_list_spec (f t : string) (m : gmap string node) :
  t ∈ test_list f m ↔
    isdir "tests" m = true ∧ isdir t m = true ∧ contains t f ∧
    ∃ n, t = "tests/" +:+ n ∧ truthy n = true ∧ char_in "/" n = false ∧
         hidden n = false.
Proof.
  unfold test_list. rewrite filter_list_unfold.
  rewrite list_elem_of_In, !filter_In, <- list_elem_of_In.
  rewrite elem_of_glob_tests, str_in_spec. split.
  - intros [[[Hd (n & -> & _ & H)] Hf] Ht]. repeat split; try done. by exists n.
  - intros (Hd & Ht & Hf & n & -> & H). repeat split; try done.
    exists n. repeat split; try done; try apply H.
    unfold isdir in Ht. apply bool_decide_eq_true in Ht. rewrite Ht. by exists Dir.
Qed.

(** X2. A filter that occurs in [tests/] does not narrow the list: every
    test is run, as with no filter at all. *)
Theorem test_list_filter_in_prefix (f : string) (m : gmap string node) :
  contains "tests/" f → test_list f m = test_list "" m.
Proof.
  intros Hf. unfold test_list. rewrite !filter_list_unfold. f_equal.
  rewrite (filter_all _ _ str_in_empty). apply filter_all_in.
  intros t (_ & n & -> & _)%elem_of_glob_tests. apply str_in_spec.
  apply (contains_trans _ "tests/"); [| done]. by exists "", n.
Qed.

Lemma test_list_filter_in_prefix_witness :
  contains "tests/" "s"
  ∧ test_list "s" sample_fs = test_list "" sample_fs.
Proof.
  assert (contains "tests/" "s") as H by by exists "te", "ts/".
  split; [exact H |]. exact (test_list_filter_in_prefix "s" sample_fs H).
Defined.

(** X3. A longer filter selects less: when [f] occurs in [g], what
    [filter_list] keeps for [g] is a subsequence of what it keeps for [f],
    for the same expansion; and a path of the expansion is always kept by
    the filter that is this path. *)
Theorem filter_list_narrows (glob : string → list string) (pattern f g : string) :
  contains g f →
  filter_list glob pattern g `sublist_of` filter_list glob pattern f
  ∧ ∀ t, t ∈ glob pattern → t ∈ filter_list glob pattern t.
Proof.
  intros Hgf. rewrite !filter_list_unfold. split.
  - apply filter_sublist_impl. intros x Hx. apply str_in_spec.
    apply str_in_spec in Hx. by eapply contains_trans.
  - intros t Ht. rewrite filter_list_unfold.
    apply list_elem_of_In, filter_In. split; [by apply list_elem_of_In |].
    apply str_in_spec. exists "", "". by rewrite append_nil_r.
Qed.

Lemma filter_list_narrows_witness :
  contains "smoke_a" "smoke"
  ∧ filter_list (λ p, glob p sample_fs) "tests/*" "smoke_a"
      `sublist_of` filter_list (λ p, glob p sample_fs) "tests/*" "smoke"
  ∧ ∀ t, t ∈ glob "tests/*" sample_fs →
         t ∈ filter_list (λ p, glob p sample_fs) "tests/*" t.
Proof.
  assert (contains "smoke_a" "smoke") as H by by exists "", "_a".
  split; [exact H |].
  exact (filter_list_narrows (λ p, glob p sample_fs) "tests/*" "smoke" "smoke_a" H).
Defined.

(** ** The discriminants from the command line to the tests *)

Lemma str_split_no_sep (sep : ascii) (x : string) :
  char_in sep x = false → str_split sep x = [x].
Proof.
  induction x as [|c x IH]; [done |]. cbn [char_in str_split].
  intros [Hc Hx]%orb_false_iff. rewrite Ascii.eqb_sym in Hc.
  by rewrite Hc, (IH Hx).
Qed.

Lemma str_split_app_sep (sep : ascii) (x r : string) :
  char_in sep x = false →
  str_split sep (x +:+ String sep r) = x :: str_split sep r.
Proof.
  induction x as [|c x IH].
  - intros _. rewrite append_nil_l. cbn [str_split]. by rewrite Ascii.eqb_refl.
  - cbn [char_in]. intros [Hc Hx]%orb_false_iff. rewrite Ascii.eqb_sym in Hc.
    rewrite append_cons. cbn [str_split]. by rewrite Hc, (IH Hx).
Qed.

(** Splitting what was joined gives the fields back, when no field holds
    the separator. *)
Lemma str_split_join (sep : ascii) (l : list string) :
  l ≠ [] → Forall (λ x, char_in sep x = false) l →
  str_split sep (str_join (String sep "") l) = l.
Proof.
  induction l as [|x l IH]; [done |]. intros _ Hl.
  apply Forall_cons in Hl as [Hx Hl]. destruct l as [|y l].
  - cbn [str_join]. by apply str_split_no_sep.
  - rewrite str_join_cons by done.
    change (x +:+ String sep "" +:+ str_join (String sep "") (y :: l))
      with (x +:+ String sep (str_join (String sep "") (y :: l))).
    rewrite (str_split_app_sep sep x _ Hx). by rewrite IH.
Qed.

(** No field of a split holds the separator. *)
Lemma str_split_fields (sep : ascii) (s : string) :
  Forall (λ x, char_in sep x = false) (str_split sep s).
Proof.
  induction s as [|c s IH]; cbn [str_split]; [by repeat constructor |].
  destruct (Ascii.eqb_spec c sep) as [->|Hne]; [by constructor |].
  assert (Ascii.eqb sep c = false) as Hc by (apply Ascii.eqb_neq; congruence).
  destruct (str_split sep s) as [|x l].
  - repeat constructor. cbn [char_in]. by rewrite Hc.
  - apply Forall_cons in IH as [Hx Hl]. constructor; [| done].
    cbn [char_in]. by rewrite Hx, Hc.
Qed.

Lemma parse_options_run (h : Harness) (w w1 : world) (m : parsed) :
  parse_args h w = (w1, Returned m) →
  ∃ w' o, __parse_options h w = (w', Returned o)
    ∧ opt_discs o = match p_discs m with
                    | Some d => if truthy d then str_split "," d else []
                    | None => []
                    end.
Proof.
  intros H. unfold __parse_options. rewrite (bind_returned _ _ _ _ _ H).
  destruct (truthy_list (p_args m)); run; eauto.
Qed.

(** X4. The text of the [-d] option reaches every test as it was typed:
    the [-d] argument of a test's command line is [ALL,ALL], the platform
    and the triplet joined by commas, followed, when the option was given a
    non-empty text, by a comma and that text. *)
Theorem discs_option_forwarded (h : Harness) (w w1 : world) (m : parsed) :
  parse_args h w = (w1, Returned m) →
  ∃ w' o, __parse_options h w = (w', Returned o) ∧
    ∀ env result_dir test,
      cmd (test_build_cmd h (build_discs env o) result_dir o test) !! 3 =
        Some ("ALL,ALL," +:+ platform env +:+ "," +:+ triplet env +:+
              match p_discs m with
              | Some d => if truthy d then "," +:+ d else ""
              | None => ""
              end).
Proof.
  intros H. destruct (parse_options_run h w w1 m H) as (w' & o & E & Hd).
  exists w', o. split; [done |]. intros env result_dir test.
  assert (cmd (test_build_cmd h (build_discs env o) result_dir o test) !! 3
          = Some (str_join "," (build_discs env o))) as ->.
  { unfold test_build_cmd.
    destruct (opt_verbose o), (truthy_opt (opt_host o)),
      (truthy_opt (opt_target o)), (opt_enable_cleanup o); reflexivity. }
  f_equal. unfold build_discs. rewrite Hd.
  destruct (p_discs m) as [d|]; [destruct (truthy d) eqn:Ed |].
  - pose proof (str_split_nonempty "," d) as Hne.
    pose proof (str_join_split "," d) as Hj.
    destruct (str_split "," d) as [|x l] eqn:Es; [done |].
    cbn [truthy_list app]. rewrite !str_join_cons by done.
    change (String "," "") with "," in Hj. rewrite Hj.
    reflexivity.
  - cbn [truthy_list app str_join]. by rewrite append_nil_r.
  - cbn [truthy_list app str_join]. by rewrite append_nil_r.
Qed.

Lemma discs_option_forwarded_witness :
  parse_args sample_harness sample_world = (sample_world, Returned sample_parsed)
  ∧ ∃ w' o, __parse_options sample_harness sample_world = (w', Returned o) ∧
      ∀ env result_dir test,
        cmd (test_build_cmd sample_harness (build_discs env o) result_dir o test) !! 3 =
          Some ("ALL,ALL," +:+ platform env +:+ "," +:+ triplet env +:+ ",gnat,fast").
Proof.
  split; [reflexivity |].
  exact (discs_option_forwarded sample_harness sample_world sample_world
           sample_parsed eq_refl).
Defined.

(** X5. With a platform and a triplet free of commas, splitting the [-d]
    argument of a test at the commas gives the list of discriminants back,
    element by element: the options [__parse_options] returns hold no
    discriminant with a comma in it. *)
Theorem discs_argument_round_trip (h : Harness) (w w' : world) (o : options)
    (env : target_env) :
  __parse_options h w = (w', Returned o) →
  char_in "," (platform env) = false → char_in "," (triplet env) = false →
  str_split "," (str_join "," (build_discs env o)) = build_discs env o.
Proof.
  intros H Hp Ht. apply (str_split_join ",").
  - unfold build_discs. by destruct (truthy_list (opt_discs o)).
  - assert (Forall (λ x, char_in "," x = false) (opt_discs o)) as Hd.
    { unfold __parse_options in H. revert H. run.
      destruct (parse_args h w) as [w1 [m|e]]; [| done].
      destruct (truthy_list (p_args m)); intros [= _ <-]; cbn [opt_discs];
        (destruct (p_discs m) as [d|]; [destruct (truthy d) |]);
        try apply str_split_fields; constructor. }
    unfold build_discs. destruct (truthy_list (opt_discs o)); cbn [app];
      repeat (constructor; [done |]); [done | constructor].
Qed.

Lemma discs_argument_round_trip_witness :
  let o := Options "smoke" ["gnat"; "fast"] "out" "/tmp/tp" true
             (Some "build-host") None false false None 2 in
  let env := Target "x86_64-linux" "x86_64-pc-linux-gnu" in
  __parse_options sample_harness sample_world =
    (add_stdout "Running only test 'smoke'" sample_world, Returned o)
  ∧ char_in "," (platform env) = false ∧ char_in "," (triplet env) = false
  ∧ str_split "," (str_join "," (build_discs env o)) = build_discs env o.
Proof.
  intros o env.
  assert (__parse_options sample_harness sample_world =
            (add_stdout "Running only test 'smoke'" sample_world, Returned o)) as H
    by reflexivity.
  split; [exact H |]. split; [reflexivity |]. split; [reflexivity |].
  exact (discs_argument_round_trip sample_harness sample_world _ o env H
           eq_refl eq_refl).
Defined.

(** ** What the clean-up removes, and what it leaves *)

Lemma fs_clean_result_dir (d : string) (w : world) :
  plain_fs (fs w) → fs (clean_result_dir d w).1 = clean_fs d (fs w).
Proof. intros Hp. by rewrite (clean_result_dir_run d w Hp). Qed.

(** [rm] of a list of paths: what lies below one of them that was there
    is gone with it. *)
Lemma foldl_rm_effect_subtree (l : list string) (m : gmap string node) (t q : string) :
  t ∈ l → is_Some (m !! t) → beneath t q = true →
  foldl (λ m f, rm_effect f m) m l !! q = None.
Proof.
  revert m. induction l as [|t' l IH]; intros m Ht Hs Hq.
  { by apply elem_of_nil in Ht. }
  cbn [foldl].
  assert (rm_effect t' m !! q = None ∨ is_Some (rm_effect t' m !! t)) as [Hg|Hk].
  { unfold rm_effect. destruct (lexists t' m); [| by right].
    rewrite !lookup_rmtree.
    destruct (decide (t = t' ∨ beneath t' t = true)) as [Hc|Hc]; [left | by right].
    rewrite decide_True; [done |]. right.
    destruct Hc as [->|Hc]; [done | by apply (beneath_trans t' t q)]. }
  - by apply (lookup_subseteq_None _ _ _ (foldl_rm_effect_subseteq l _)).
  - apply elem_of_cons in Ht as [->|Ht]; [| by apply IH].
    apply (lookup_subseteq_None _ _ _ (foldl_rm_effect_subseteq l _)).
    by rewrite (rm_effect_present _ _ Hs), lookup_rmtree, decide_True by by right.
Qed.

Lemma clean_deletions_subtree (d t q : string) (m : gmap string node) :
  t ∈ [d +:+ "/results"; d +:+ "/report"; "discs"] →
  q = t ∨ (is_Some (m !! t) ∧ beneath t q = true) →
  clean_deletions d m !! q = None.
Proof.
  intros Ht [->|[Hs Hq]]; [by apply clean_deletions_named_gone |].
  unfold clean_deletions.
  apply (lookup_subseteq_None _ _ _ (foldl_sweep_subseteq d artifact_exts _)).
  by apply (foldl_rm_effect_subtree _ m t q).
Qed.

(** What [mkdir] adds is a directory, at the path or above it. *)
Lemma mkdir_fs_added (p q : string) (m : gmap string node) :
  m !! q = None →
  mkdir_fs p m !! q = None ∨
  (mkdir_fs p m !! q = Some Dir ∧ (q = p ∨ beneath q p = true)).
Proof.
  intros Hq. destruct (mkdir_fs p m !! q) as [x|] eqn:E; [right | by left].
  split.
  - destruct x as [c|]; [| done].
    apply mkdir_fs_file in E. congruence.
  - assert (q ∈ ancestors p ++ [p]) as Hin
      by (apply (mkdir_fs_new p q m Hq); by rewrite E).
    apply elem_of_app in Hin as [Hin|Hin%list_elem_of_singleton]; [right | by left].
    by apply ancestors_beneath.
Qed.

Lemma clean_fs_subtree (d t q : string) (m : gmap string node) :
  lexists d m = true →
  t ∈ [d +:+ "/results"; d +:+ "/report"; "discs"] →
  q = t ∨ (is_Some (m !! t) ∧ beneath t q = true) →
  clean_fs d m !! q = None ∨
  (clean_fs d m !! q = Some Dir ∧ (q = d ∨ beneath q d = true)).
Proof.
  intros Hd Ht Hq. unfold clean_fs. rewrite Hd.
  apply mkdir_fs_added. by apply (clean_deletions_subtree d t q).
Qed.

(** In a well-formed file system an entry lies below directories. *)
Lemma well_formed_above (m : gmap string node) (a k : string) :
  well_formed m → is_Some (m !! k) → truthy a = true → beneath a k = true →
  m !! a = Some Dir.
Proof.
  intros Hwf [x Hk] Ha Hb. specialize (Hwf k x Hk). cbn in Hwf.
  apply andb_true_iff in Hwf as [_ Hf].
  rewrite forallb_forall in Hf.
  specialize (Hf a (proj1 (list_elem_of_In _ _) (ancestors_of_beneath a k Ha Hb))).
  unfold isdir in Hf. by apply bool_decide_eq_true in Hf.
Qed.

(** In a well-formed file system the clean-up of an output directory
    that is there leaves nothing at one of the three named paths or below
    it, but for what [mkdir] makes again. *)
Lemma clean_fs_subtree_wf (d t q : string) (m : gmap string node) :
  well_formed m → lexists d m = true →
  t ∈ [d +:+ "/results"; d +:+ "/report"; "discs"] →
  q = t ∨ beneath t q = true →
  clean_fs d m !! q = None ∨
  (clean_fs d m !! q = Some Dir ∧ (q = d ∨ beneath q d = true)).
Proof.
  intros Hwf Hd Ht [->|Hq]; [apply (clean_fs_subtree d t t m Hd Ht); by left |].
  destruct (m !! q) as [x|] eqn:Ex.
  - apply (clean_fs_subtree d t q m Hd Ht). right. split; [| done].
    exists Dir. apply (well_formed_above m t q Hwf); [by exists x | | done].
    apply elem_of_cons in Ht as [->|[->|[->|[]%elem_of_nil]%elem_of_cons]%elem_of_cons];
      [by apply truthy_append_r | by apply truthy_append_r | done].
  - unfold clean_fs. rewrite Hd. apply mkdir_fs_added.
    by apply (lookup_subseteq_None _ _ _ (clean_deletions_subseteq d m)).
Qed.

(** A path at or below an entry of the output directory is not the output
    directory, and not above it. *)
Lemma child_not_above (d n q : string) :
  q = d +:+ "/" +:+ n ∨ beneath (d +:+ "/" +:+ n) q = true →
  ¬ (q = d ∨ beneath q d = true).
Proof.
  intros Hq Hd.
  assert (String.length d < String.length q) as Hlt.
  { destruct Hq as [->|Hq].
    - rewrite !append_length. cbn. lia.
    - apply beneath_length in Hq. rewrite !append_length in Hq. lia. }
  destruct Hd as [->|Hd]; [lia |]. apply beneath_length in Hd. lia.
Qed.

(** X6. In a well-formed file system, every entry under its canonical
    spelling and below directories, and for an output directory that is
    there, the clean-up leaves no [results] and no [report] in the output
    directory and nothing below an entry of that name; and it leaves
    nothing at [discs] in the working directory or below it, but for the
    output directory and the directories above it, which [mkdir] makes
    again as empty directories when the output directory lay there. *)
Theorem clean_removes_indexes (d : string) (w : world) :
  well_formed (fs w) → lexists d (fs w) = true →
  let w' := (clean_result_dir d w).1 in
  (∀ t q, t ∈ [d +:+ "/results"; d +:+ "/report"] →
     q = t ∨ beneath t q = true → fs w' !! q = None)
  ∧ (∀ q, q = "discs" ∨ beneath "discs" q = true →
       fs w' !! q = None ∨
       (fs w' !! q = Some Dir ∧ (q = d ∨ beneath q d = true)))
  ∧ (d ≠ "discs" → beneath "discs" d = false → fs w' !! "discs" = None).
Proof.
  intros Hwf Hd w'. pose proof (well_formed_plain _ Hwf) as Hp.
  unfold w'. rewrite (fs_clean_result_dir d w Hp).
  split; [| split].
  - intros t q Ht Hq.
    assert (t ∈ [d +:+ "/results"; d +:+ "/report"; "discs"]) as Ht'.
    { apply elem_of_cons in Ht as [->|[->|[]%elem_of_nil]%elem_of_cons];
        solve [repeat first [by left | right]]. }
    destruct (clean_fs_subtree_wf d t q (fs w) Hwf Hd Ht' Hq) as [H|[_ H]];
      [done |].
    exfalso.
    assert (∃ n, t = d +:+ "/" +:+ n) as [n ->].
    { apply elem_of_cons in Ht as [->|[->|[]%elem_of_nil]%elem_of_cons].
      - by exists "results".
      - by exists "report". }
    by apply (child_not_above d n q).
  - intros q Hq. apply (clean_fs_subtree_wf d "discs" q (fs w) Hwf Hd); [| done].
    solve [repeat first [by left | right]].
  - intros Hne Hb.
    destruct (clean_fs_subtree_wf d "discs" "discs" (fs w) Hwf Hd)
      as [H|[_ [H|H]]];
      [solve [repeat first [by left | right]] | by left | done | done | congruence].
Qed.

Lemma clean_removes_indexes_witness :
  well_formed (fs sample_world) ∧ lexists "out" (fs sample_world) = true
  ∧ fs (clean_result_dir "out" sample_world).1 !! "out/results" = None
  ∧ fs (clean_result_dir "out" sample_world).1 !! "discs" = None.
Proof.
  assert (well_formed (fs sample_world)) as Hp.
  { unfold well_formed. eapply bool_decide_unpack. vm_compute. exact I. }
  pose proof (clean_removes_indexes "out" sample_world Hp eq_refl) as (H1 & _ & H3).
  split; [exact Hp |]. split; [reflexivity |]. split.
  - apply (H1 "out/results" "out/results"); [left | by left].
  - apply H3; [discriminate | reflexivity].
Defined.

(** A path that ends where a path below [discs] ends is [discs] or lies
    below it. *)
Lemma discs_prefix (d r : string) :
  d +:+ "/discs" = "discs" +:+ "/" +:+ r →
  d = "discs" ∨ ∃ r', d = "discs" +:+ "/" +:+ r'.
Proof.
  intros E.
  change ("discs" +:+ "/" +:+ r)
    with (String "d" (String "i" (String "s" (String "c" (String "s"
            (String "/" r)))))) in E.
  do 5 (destruct d as [|? d];
        [rewrite append_nil_l in E; discriminate E |];
        rewrite append_cons in E; injection E as -> E).
  destruct d as [|? d]; [by left |].
  rewrite append_cons in E. injection E as -> E. right. by exists d.
Qed.

(** The name [discs] below an output directory that is not [discs] and
    does not lie below [discs] is no path the clean-up hands to [rm], and
    lies below none. *)
Lemma output_discs_not_covered (d : string) :
  d ≠ "discs" → beneath "discs" d = false → ¬ covered d (d +:+ "/discs").
Proof.
  intros Hne Hb (t & Ht & Hq).
  assert (∀ n r, "discs" = n +:+ "/" +:+ r → False) as Hslash.
  { intros n r E. apply (f_equal (char_in "/")) in E.
    rewrite !char_in_append in E. cbn in E. by rewrite orb_true_r in E. }
  assert (∀ n, d +:+ "/discs" = d +:+ "/" +:+ n
               ∨ beneath (d +:+ "/" +:+ n) (d +:+ "/discs") = true →
               n = "discs" ∨ ∃ r, "discs" = n +:+ "/" +:+ r) as Hchild.
  { intros n [E|[r E]%beneath_spec].
    - left. change (d +:+ "/discs") with (d +:+ "/" +:+ "discs") in E.
      by apply append_inv_l, append_inv_l in E.
    - right. exists r. rewrite !append_assoc in E.
      change (d +:+ "/discs") with (d +:+ "/" +:+ "discs") in E.
      by apply append_inv_l, append_inv_l in E. }
  destruct Ht as [->|[->|[->|(n & Hn & ->)]]].
  - destruct (Hchild "results" Hq) as [?|[r E]]; [done | by apply (Hslash _ _ E)].
  - destruct (Hchild "report" Hq) as [?|[r E]]; [done | by apply (Hslash _ _ E)].
  - destruct Hq as [E|[r E]%beneath_spec].
    + apply (f_equal String.length) in E. rewrite append_length in E.
      cbn in E. lia.
    + destruct (discs_prefix d r E) as [?|[r' ->]]; [done |].
      by rewrite (beneath_child "discs" r') in Hb.
  - destruct (Hchild n Hq) as [->|[r E]]; [done | by apply (Hslash _ _ E)].
Qed.

(** X7. In a well-formed file system and for an output directory given
    in canonical spelling, the clean-up removes [discs] in the working
    directory, not the [discs] of the output directory, where the script
    writes it at the end of a run: what is at [<output dir>/discs] before
    the clean-up is there after it, unless the output directory is [discs]
    itself or lies below it. *)
Theorem clean_keeps_output_discs (d : string) (w : world) (x : node) :
  well_formed (fs w) → canonical d = true →
  d ≠ "discs" → beneath "discs" d = false →
  fs w !! (d +:+ "/discs") = Some x →
  fs (clean_result_dir d w).1 !! (d +:+ "/discs") = Some x.
Proof.
  intros Hwf _ Hne Hb Hx. pose proof (well_formed_plain _ Hwf) as Hp.
  rewrite (fs_clean_result_dir d w Hp).
  apply clean_fs_keeps; [done | done |]. by apply output_discs_not_covered.
Qed.

Lemma clean_keeps_output_discs_witness :
  well_formed (<["out/discs" := File "ALL ALL"]> (fs sample_world))
  ∧ canonical "out" = true
  ∧ fs (clean_result_dir "out"
          (set_fs <["out/discs" := File "ALL ALL"]> sample_world)).1 !! "out/discs"
    = Some (File "ALL ALL").
Proof.
  assert (well_formed (fs (set_fs <["out/discs" := File "ALL ALL"]> sample_world)))
    as Hp.
  { unfold well_formed. eapply bool_decide_unpack. vm_compute. exact I. }
  split; [exact Hp |]. split; [reflexivity |].
  apply (clean_keeps_output_discs "out" _ (File "ALL ALL") Hp);
    [reflexivity | discriminate | reflexivity | reflexivity].
Defined.

(** X8. In a well-formed file system that has no entry at an output
    directory given in canonical spelling, the clean-up removes nothing,
    the [discs] of the working directory included: every entry stays as it
    is, what is new is a directory, the output directory or one above it,
    and the call returns exactly when no regular file is in the way above
    it; the output directory is then there. *)
Theorem clean_missing_dir_only_creates (d : string) (w : world) :
  well_formed (fs w) → canonical d = true → lexists d (fs w) = false →
  let r := clean_result_dir d w in
  fs w ⊆ fs r.1
  ∧ (∀ q, fs w !! q = None → is_Some (fs r.1 !! q) →
       fs r.1 !! q = Some Dir ∧ (q = d ∨ beneath q d = true))
  ∧ (r.2 = Returned tt ↔ ∀ a, a ∈ ancestors d → isfile a (fs w) = false)
  ∧ (r.2 = Returned tt → isdir d (fs r.1) = true).
Proof.
  intros _ Hc Hd r.
  assert (r = (set_fs (mkdir_fs d) w,
               if mkdir_ok d (fs w) then Returned tt
               else Raised (Exception "FileUtilsError" ("mkdir: " +:+ d)))) as ->.
  { unfold r, clean_result_dir. run. rewrite Hd. apply mkdir_run. }
  cbn [fst snd set_fs fs].
  assert (d ≠ "") as Hne.
  { apply canonical_plain, plain_inv in Hc as [Ht _]. by apply truthy_true. }
  assert (fs w !! d = None) as Hnone.
  { unfold lexists in Hd. apply bool_decide_eq_false in Hd.
    by apply eq_None_not_Some. }
  assert (isdir d (fs w) = false) as Hnd
    by (unfold isdir; apply bool_decide_eq_false; congruence).
  assert (mkdir_ok d (fs w) = true ↔
            ∀ a, a ∈ ancestors d → isfile a (fs w) = false) as Hok.
  { unfold mkdir_ok. rewrite Hnd, orb_false_l, andb_true_iff, truthy_true,
      forallb_forall. split.
    - intros [_ H] a Ha. apply negb_true_iff, H, list_elem_of_In, elem_of_app.
      by left.
    - intros H. split; [done |].
      intros a [Ha|Ha%list_elem_of_singleton]%list_elem_of_In%elem_of_app;
        apply negb_true_iff; [by apply H |].
      subst a. unfold isfile. by rewrite Hnone. }
  split; [| split; [| split]].
  - apply map_subseteq_spec. intros q x. apply mkdir_fs_lookup_Some.
  - intros q Hq Hs. destruct (mkdir_fs_added d q (fs w) Hq) as [H|H]; [| done].
    rewrite H in Hs. by destruct Hs.
  - rewrite <- Hok. by destruct (mkdir_ok d (fs w)).
  - destruct (mkdir_ok d (fs w)) eqn:E; [| done]. intros _.
    by apply mkdir_fs_isdir.
Qed.

Lemma clean_missing_dir_only_creates_witness :
  well_formed (fs sample_world) ∧ canonical "runs/today" = true
  ∧ lexists "runs/today" (fs sample_world) = false
  ∧ fs sample_world ⊆ fs (clean_result_dir "runs/today" sample_world).1
  ∧ (clean_result_dir "runs/today" sample_world).2 = Returned tt
  ∧ isdir "runs/today" (fs (clean_result_dir "runs/today" sample_world).1) = true.
Proof.
  assert (well_formed (fs sample_world)) as Hp.
  { unfold well_formed. eapply bool_decide_unpack. vm_compute. exact I. }
  pose proof (clean_missing_dir_only_creates "runs/today" sample_world Hp
                eq_refl eq_refl) as (H1 & _ & _ & H4).
  split; [exact Hp |]. split; [reflexivity |]. split; [reflexivity |].
  split; [exact H1 |]. split; [reflexivity |]. apply H4. reflexivity.
Defined.

(** The output directory is no path the clean-up hands to [rm] and lies
    below none, unless it is [discs] or lies below it. *)
Lemma output_dir_not_covered (d : string) :
  d ≠ "discs" → beneath "discs" d = false → ¬ covered d d.
Proof.
  intros Hne Hb (t & Ht & Hq).
  assert (∀ n, ¬ (d = d +:+ "/" +:+ n ∨ beneath (d +:+ "/" +:+ n) d = true))
    as Hchild.
  { intros n H. apply (child_not_above d n d H). by left. }
  destruct Ht as [->|[->|[->|(n & _ & ->)]]].
  - by apply (Hchild "results").
  - by apply (Hchild "report").
  - destruct Hq; congruence.
  - by apply (Hchild n).
Qed.

(** X13. In a well-formed file system, an output directory name that a
    regular file holds, and that is not [discs] and does not lie below it:
    the clean-up removes what it removes, the [discs] of the working
    directory included, and then fails in [mkdir] with [FileUtilsError];
    the regular file stays as it is. *)
Theorem clean_output_dir_is_file (d c : string) (w : world) :
  well_formed (fs w) → fs w !! d = Some (File c) →
  d ≠ "discs" → beneath "discs" d = false →
  let r := clean_result_dir d w in
  (∃ msg, r.2 = Raised (Exception "FileUtilsError" msg))
  ∧ fs r.1 !! d = Some (File c)
  ∧ fs r.1 !! "discs" = None.
Proof.
  intros Hwf Hd Hne Hb r. pose proof (well_formed_plain _ Hwf) as Hp.
  unfold r. rewrite (clean_result_dir_run d w Hp).
  cbn [fst snd set_fs fs].
  assert (lexists d (fs w) = true) as Hex
    by (unfold lexists; apply bool_decide_eq_true; by rewrite Hd).
  assert (plain d = true) as Hpd
    by (apply (plain_fs_lookup (fs w)); [done | by rewrite Hd]).
  pose proof (output_dir_not_covered d Hne Hb) as Hnc.
  split; [| split].
  - rewrite Hex.
    assert (mkdir_ok d (clean_deletions d (fs w)) = false) as ->; [| by eexists].
    assert (clean_deletions d (fs w) !! d = Some (File c)) as Hk
      by (by rewrite (clean_deletions_frame d d (fs w) Hpd Hnc)).
    unfold mkdir_ok, isdir, isfile.
    rewrite forallb_app. cbn [forallb]. rewrite Hk. cbn.
    rewrite bool_decide_eq_false_2 by done.
    by rewrite !andb_false_r.
  - by apply clean_fs_keeps.
  - destruct (clean_fs_subtree d "discs" "discs" (fs w) Hex)
      as [H|[_ [H|H]]];
      [solve [repeat first [by left | right]] | by left | done | done | congruence].
Qed.

Lemma clean_output_dir_is_file_witness :
  well_formed (fs sample_world)
  ∧ fs sample_world !! "tests/README" = Some (File "how to add a test")
  ∧ (∃ msg, (clean_result_dir "tests/README" sample_world).2
            = Raised (Exception "FileUtilsError" msg))
  ∧ fs (clean_result_dir "tests/README" sample_world).1 !! "tests/README"
    = Some (File "how to add a test")
  ∧ fs (clean_result_dir "tests/README" sample_world).1 !! "discs" = None.
Proof.
  assert (well_formed (fs sample_world)) as Hp.
  { unfold well_formed. eapply bool_decide_unpack. vm_compute. exact I. }
  split; [exact Hp |]. split; [reflexivity |].
  apply (clean_output_dir_is_file "tests/README" "how to add a test"
           sample_world Hp); [reflexivity | discriminate | reflexivity].
Defined.

(** ** How a run ends when a step fails *)

(** What an exception that [main] raises makes of the process: an
    assertion is printed and the status is 0, an exit keeps its code, any
    other class ends in a traceback and status 1. *)
Lemma python_main_raised (h : Harness) (w w1 : world) (e : exn) :
  main h w = (w1, Raised e) →
  python (__main__ h) w =
    match e with
    | AssertionError msg => (add_stdout ("ERROR: " +:+ msg) w1, 0%Z)
    | SystemExit code => (w1, code)
    | Exception class msg =>
        (add_stderr (class +:+ ": " +:+ msg)
           (add_stderr "Traceback (most recent call last):" w1), 1%Z)
    end.
Proof.
  intros H. unfold python, __main__, try_except. rewrite H. by destruct e.
Qed.

Lemma main_parse_raised (h : Harness) (w w1 : world) (e : exn) :
  parse_args h w = (w1, Raised e) → main h w = (w1, Raised e).
Proof.
  intros H. unfold main, run_tests, __parse_options.
  by repeat (apply bind_raised).
Qed.

(** X9. A command line the option parser rejects ends the run there: the
    exception of [parse_args] is the exception of [main], in the world the
    parser left, so that nothing is cleaned, made or run; an exit ends the
    process with its code, an assertion is printed after [ERROR: ] with
    status 0, any other class ends in a traceback and status 1. *)
Theorem parse_failure_ends_run (h : Harness) (w w1 : world) (e : exn) :
  parse_args h w = (w1, Raised e) →
  main h w = (w1, Raised e)
  ∧ python (__main__ h) w =
      match e with
      | AssertionError msg => (add_stdout ("ERROR: " +:+ msg) w1, 0%Z)
      | SystemExit code => (w1, code)
      | Exception class msg =>
          (add_stderr (class +:+ ": " +:+ msg)
             (add_stderr "Traceback (most recent call last):" w1), 1%Z)
      end.
Proof.
  intros H. pose proof (main_parse_raised h w w1 e H) as Hm.
  split; [done | by apply python_main_raised].
Qed.

Lemma parse_failure_ends_run_witness :
  parse_args rejecting_harness sample_world = (sample_world, Raised (SystemExit 2))
  ∧ main rejecting_harness sample_world = (sample_world, Raised (SystemExit 2))
  ∧ python (__main__ rejecting_harness) sample_world = (sample_world, 2%Z).
Proof.
  split; [reflexivity |].
  exact (parse_failure_ends_run rejecting_harness sample_world sample_world
           (SystemExit 2) eq_refl).
Defined.

(** X10. Without [PATH] in the environment the script stops at its first
    lines, whatever the harness: the sum of line 38 raises [TypeError]
    before [main] is entered, the process ends with a traceback and status
    1, and the file system, the environment and the output are as they
    were. *)
Theorem path_unset_stops_script (h : Harness) (w : world) :
  environ w !! "PATH" = None →
  script h w =
    (w, Raised (Exception "TypeError" "unsupported operand type(s) for +"))
  ∧ let r := python (script h) w in
    r.2 = 1%Z ∧ fs r.1 = fs w ∧ environ r.1 = environ w ∧ cwd r.1 = cwd w
    ∧ stdout r.1 = stdout w
    ∧ stderr r.1 = stderr w ++ ["Traceback (most recent call last):";
                                "TypeError: unsupported operand type(s) for +"].
Proof.
  intros H.
  assert (script h w =
            (w, Raised (Exception "TypeError" "unsupported operand type(s) for +")))
    as Hs.
  { unfold script. apply bind_raised. unfold module_setup. by rewrite H. }
  split; [done |]. unfold python. rewrite Hs. cbn.
  by rewrite <- app_assoc.
Qed.

Lemma path_unset_stops_script_witness :
  environ nested_world !! "PATH" = None
  ∧ (python (script sample_harness) nested_world).2 = 1%Z
  ∧ fs (python (script sample_harness) nested_world).1 = fs nested_world.
Proof.
  pose proof (path_unset_stops_script sample_harness nested_world eq_refl)
    as (_ & H1 & H2 & _).
  split; [reflexivity |]. split; [exact H1 | exact H2].
Defined.

(** X11. When the job loop has returned and the [discs] file of the output
    directory cannot be opened for writing, [main] raises [IOError] with
    nothing written; when it can and the report cannot, the [discs] file
    is written and [IOError] is raised for the report.  Either way the
    process ends with status 1: the handler of the last lines lets the
    exception through. *)
Theorem report_failure_is_fatal (h : Harness) (w w1 : world) (o : options)
    (discs : list string) :
  run_tests h w = (w1, Returned (o, discs)) →
  let discs_f := opt_output_dir o +:+ "/discs" in
  let report := opt_output_dir o +:+ "/report" in
  (writable discs_f (fs w1) = false →
     main h w = (w1, Raised (Exception "IOError" discs_f))
     ∧ (python (__main__ h) w).2 = 1%Z)
  ∧ (writable discs_f (fs w1) = true → writable report (fs w1) = false →
     main h w = (set_fs <[discs_f := File (str_join " " discs)]> w1,
                 Raised (Exception "IOError" report))
     ∧ (python (__main__ h) w).2 = 1%Z).
Proof.
  intros H discs_f report.
  assert (main h w = write_report h discs (opt_output_dir o) o w1) as Hm
    by (unfold main; by rewrite (bind_returned _ _ _ _ _ H)).
  split.
  - intros Hd.
    assert (main h w = (w1, Raised (Exception "IOError" discs_f))) as E.
    { rewrite Hm. unfold write_report. apply bind_raised.
      unfold write_file. fold discs_f. by rewrite Hd. }
    split; [done |]. by rewrite (python_main_raised _ _ _ _ E).
  - intros Hd Hr.
    assert (main h w = (set_fs <[discs_f := File (str_join " " discs)]> w1,
                        Raised (Exception "IOError" report))) as E.
    { rewrite Hm. unfold write_report.
      erewrite bind_returned; [| unfold write_file; fold discs_f; by rewrite Hd].
      run. unfold write_file. fold report discs_f. cbn [fs set_fs].
      by rewrite (writable_insert_file _ _ _ _ Hd), Hr. }
    split; [done |]. by rewrite (python_main_raised _ _ _ _ E).
Qed.

Lemma report_failure_is_fatal_witness :
  let w1 := (run_tests wiping_harness sample_world).1 in
  let o := Options "smoke" ["gnat"; "fast"] "out" "/tmp/tp" true
             (Some "build-host") None false false None 2 in
  let discs := ["ALL"; "ALL"; "x86_64-linux"; "x86_64-pc-linux-gnu"; "gnat"; "fast"] in
  run_tests wiping_harness sample_world = (w1, Returned (o, discs))
  ∧ writable "out/discs" (fs w1) = false
  ∧ main wiping_harness sample_world = (w1, Raised (Exception "IOError" "out/discs"))
  ∧ (python (__main__ wiping_harness) sample_world).2 = 1%Z.
Proof.
  intros w1 o discs.
  assert (run_tests wiping_harness sample_world = (w1, Returned (o, discs))) as H
    by (vm_compute; reflexivity).
  assert (writable "out/discs" (fs w1) = false) as Hd by (vm_compute; reflexivity).
  split; [exact H |]. split; [exact Hd |].
  exact (proj1 (report_failure_is_fatal wiping_harness sample_world w1 o discs H) Hd).
Defined.

(** ** [gnatmake] *)

(** X12. A project that does not build does not stop a caller that builds
    several: when [Run] returns for every command and leaves the output
    alone, [gnatmake] over a list of projects returns, whatever the exit
    statuses, and what it has printed is, in the order of the projects, the
    captured output of each build that ended with a status other than 0,
    whole and by one [print] each, and nothing for the others. *)
Theorem gnatmake_failures_do_not_stop (run : list string → M finished)
    (prjs : list string) (w : world) :
  (∀ cmd w, ∃ w' p, run cmd w = (w', Returned p) ∧ stdout w' = stdout w) →
  let r := for_each prjs (gnatmake run) w in
  r.2 = Returned tt
  ∧ ∃ ps,
      Forall2 (λ prj p, ∃ w1 w2,
                 run ["gnatmake"; "-p"; "-gnat05"; "-P" +:+ prj; "-bargs"; "-E"] w1
                 = (w2, Returned p)) prjs ps
      ∧ stdout r.1 =
          stdout w ++ (out <$> List.filter (λ p, negb (status p =? 0)%Z) ps).
Proof.
  intros Hrun. revert w. induction prjs as [|prj prjs IH]; intros w.
  { cbn. split; [done |]. exists []. split; [constructor |]. by rewrite app_nil_r. }
  cbv zeta. cbn [for_each].
  destruct (Hrun ["gnatmake"; "-p"; "-gnat05"; "-P" +:+ prj; "-bargs"; "-E"] w)
    as (w' & p & E & Hout).
  assert (∃ w2, gnatmake run prj w = (w2, Returned tt)
            ∧ stdout w2 = stdout w ++
                (out <$> List.filter (λ p, negb (status p =? 0)%Z) [p]))
    as (w2 & Eg & Hl1).
  { unfold gnatmake. rewrite (bind_returned _ _ _ _ _ E). cbn [List.filter].
    destruct (negb (status p =? 0)%Z).
    - exists (add_stdout (out p) w'). cbn. by rewrite Hout.
    - exists w'. cbn. by rewrite app_nil_r. }
  rewrite (bind_returned _ _ _ _ _ Eg).
  destruct (IH w2) as (Hr & ps & Hps & Hl2). split; [done |].
  exists (p :: ps). split; [constructor; [by exists w, w' | done] |].
  rewrite Hl2, Hl1, <- app_assoc. f_equal. cbn [List.filter].
  by destruct (negb (status p =? 0)%Z).
Qed.

Lemma gnatmake_failures_do_not_stop_witness :
  (∀ cmd w, ∃ w' p, sample_compiler cmd w = (w', Returned p) ∧ stdout w' = stdout w)
  ∧ (for_each ["ok.gpr"; "missing.gpr"] (gnatmake sample_compiler) sample_world).2
    = Returned tt
  ∧ stdout (for_each ["ok.gpr"; "missing.gpr"] (gnatmake sample_compiler)
              sample_world).1
    = ["gnatmake: project file not found"].
Proof.
  assert (∀ cmd w, ∃ w' p,
            sample_compiler cmd w = (w', Returned p) ∧ stdout w' = stdout w) as H.
  { intros cmd w. exists w. eexists. split; [unfold sample_compiler; run |]; reflexivity. }
  split; [exact H |]. split; [| reflexivity].
  exact (proj1 (gnatmake_failures_do_not_stop sample_compiler
                  ["ok.gpr"; "missing.gpr"] sample_world H)).
Defined.
